(** * The LES light-client subprotocol of py-evm: [evm/p2p/les.py]

    A shallow embedding of the message codec, the handshake validation and
    the request builders of [evm/p2p/les.py], with the properties the
    specification states about them.

    Python values are dynamically typed, so the embedding keeps one type of
    values ([pyval]) and one type of outcomes ([result]: a value or a raised
    exception).  Dictionaries produced by decoding are finite maps; a
    dictionary handed to [Status.encode_payload] is the list of its items in
    insertion order, because that method observes the order through
    [sorted(data.items())]. *)

From Stdlib Require Import ZArith NArith List Lia.
From Stdlib Require Import Strings.String Strings.Ascii Strings.Byte.
From stdpp Require Import base option list list_monad gmap strings sorting pretty.

Local Open Scope Z_scope.

(** ** Outcomes: a returned value or a raised exception *)

(** Modelled from the spec: the enumeration
    [evm.p2p.p2p_proto.DisconnectReason] is not part of the sources.  The
    member this module refers to, and the one the spec names (disconnect
    reason "other"), is [DisconnectReason.other]. *)
Inductive DisconnectReason : Set :=
  | other.

Inductive exn : Set :=
  | KeyError (key : string)
  | AttributeError          (* attribute access on [None] *)
  | UnicodeDecodeError
  | SerializationError
  | DeserializationError
  | DecodingError
  | EncodingError
  | TypeError
  | ValueError (msg : string)
  | HandshakeFailure (reason : DisconnectReason).

Inductive result (A : Type) : Type :=
  | Ok (a : A)
  | Raise (e : exn).
Arguments Ok {A} a.
Arguments Raise {A} e.

Global Instance result_ret : MRet result := fun _ a => Ok a.
Global Instance result_bind : MBind result := fun _ _ f m =>
  match m with
  | Ok a => f a
  | Raise e => Raise e
  end.
Global Instance result_fmap : FMap result := fun _ _ f m =>
  match m with
  | Ok a => Ok (f a)
  | Raise e => Raise e
  end.

Definition is_Ok {A} (r : result A) : Prop :=
  match r with Ok _ => True | Raise _ => False end.

(** ** Bytes *)

Abbreviation bytes := (list byte).

Global Instance byte_eq_dec : EqDecision byte := Byte.byte_eq_dec.

Definition byte_of_N (n : N) : byte :=
  match Byte.of_N n with
  | Some b => b
  | None => x00
  end.

(** [key.decode('ascii')]: every byte has to be below 128. *)
Definition is_ascii_byte (b : byte) : bool := (Byte.to_N b <? 128)%N.

Definition decode_ascii (key : bytes) : result string :=
  if forallb is_ascii_byte key then Ok (string_of_list_byte key)
  else Raise UnicodeDecodeError.

(** A Python [str] is held as the string of its UTF-8 bytes, whose
    lexicographic order is the order of [str] comparison. *)
Definition str_to_bytes (s : string) : bytes := list_byte_of_string s.

(** ** Python values *)

(** The values that flow through this module: integers (a [bool] is the
    integer 0 or 1), text, byte strings, sequences (lists and tuples alike)
    and instances of [rlp.Serializable] classes, held as the values of their
    fields in declaration order. *)
#[warnings="-register-all"]
Inductive pyval : Type :=
  | PInt (n : Z)
  | PStr (s : string)
  | PBytes (b : bytes)
  | PSeq (l : list pyval)
  | PObj (fields : list pyval).

Section pyval_rect.
Variable P : pyval → Prop.
Hypothesis HInt : ∀ n, P (PInt n).
Hypothesis HStr : ∀ s, P (PStr s).
Hypothesis HBytes : ∀ b, P (PBytes b).
Hypothesis HSeq : ∀ l, Forall P l → P (PSeq l).
Hypothesis HObj : ∀ l, Forall P l → P (PObj l).

Fixpoint pyval_nested_ind (v : pyval) : P v :=
  let fix go (l : list pyval) : Forall P l :=
    match l with
    | [] => Forall_nil_2 P
    | x :: l' => Forall_cons_2 P x l' (pyval_nested_ind x) (go l')
    end in
  match v with
  | PInt n => HInt n
  | PStr s => HStr s
  | PBytes b => HBytes b
  | PSeq l => HSeq l (go l)
  | PObj l => HObj l (go l)
  end.
End pyval_rect.

Definition bytes_eqb (a b : bytes) : bool := bool_decide (a = b).

Definition all2 {A} (f : A → A → bool) : list A → list A → bool :=
  fix go l1 l2 :=
    match l1, l2 with
    | [], [] => true
    | x :: l1', y :: l2' => f x y && go l1' l2'
    | _, _ => false
    end.

(** Python's [==] on these values. *)
Fixpoint py_eq (a b : pyval) : bool :=
  match a, b with
  | PInt x, PInt y => (x =? y)%Z
  | PStr x, PStr y => String.eqb x y
  | PBytes x, PBytes y => bytes_eqb x y
  | PSeq x, PSeq y => all2 py_eq x y
  | PObj x, PObj y => all2 py_eq x y
  | _, _ => false
  end.

Definition py_ne (a b : pyval) : bool := negb (py_eq a b).

(** ** The generic codec primitives (package [rlp])

    Modelled from the spec: the serialization primitives are an external
    library ("encode/decode of unsigned integers, byte strings, ordered
    lists, and structured records"; integers are big-endian and of minimal
    length, byte strings are length-prefixed).  The definitions below follow
    the RLP wire format of that library.  Its serial values are byte strings
    and sequences of serial values. *)

Fixpoint serializable (v : pyval) : bool :=
  match v with
  | PBytes _ => true
  | PSeq l => forallb serializable l
  | _ => false
  end.

Fixpoint be_digits (fuel : nat) (n : N) (acc : bytes) : bytes :=
  match fuel with
  | O => acc
  | S fuel' =>
      if (n =? 0)%N then acc
      else be_digits fuel' (n / 256)%N (byte_of_N (n mod 256)%N :: acc)
  end.

Definition int_to_big_endian (n : N) : bytes :=
  be_digits (N.to_nat (N.size n)) n [].

Definition big_endian_to_int (bs : bytes) : N :=
  fold_left (fun acc b => (acc * 256 + Byte.to_N b)%N) bs 0%N.

Definition blen (bs : bytes) : N := N.of_nat (length bs).

Definition length_prefix (len offset : N) : result bytes :=
  if (len <? 56)%N then Ok [byte_of_N (offset + len)]
  else if (len <? 2 ^ 64)%N then
    let ls := int_to_big_endian len in
    Ok (byte_of_N (offset + 55 + blen ls) :: ls)
  else Raise (ValueError "Length greater than 256**8").

Definition encode_str (bs : bytes) : result bytes :=
  match bs with
  | [b] =>
      if (Byte.to_N b <? 128)%N then Ok [b]
      else p ← length_prefix 1 128; Ok (p ++ bs)
  | _ => p ← length_prefix (blen bs) 128; Ok (p ++ bs)
  end.

Fixpoint encode_raw (v : pyval) : result bytes :=
  match v with
  | PBytes bs => encode_str bs
  | PSeq l =>
      encs ← mapM encode_raw l;
      let payload := concat encs in
      p ← length_prefix (blen payload) 192;
      Ok (p ++ payload)
  | _ => Raise EncodingError
  end.

Definition take_exact (n : N) (bs : bytes) : result (bytes * bytes) :=
  if (n <=? blen bs)%N then Ok (take (N.to_nat n) bs, drop (N.to_nat n) bs)
  else Raise DecodingError.

(** The length field of a long form: no leading zero, and at least 56. *)
Definition decode_long_length (ll : N) (bs : bytes) : result (N * bytes) :=
  '(lenbytes, rest) ← take_exact ll bs;
  match lenbytes with
  | [] => Raise DecodingError
  | b :: _ =>
      if (Byte.to_N b =? 0)%N then Raise DecodingError
      else
        let len := big_endian_to_int lenbytes in
        if (len <? 56)%N then Raise DecodingError else Ok (len, rest)
  end.

Fixpoint consume_item (fuel : nat) (bs : bytes) : result (pyval * bytes) :=
  match fuel with
  | O => Raise DecodingError
  | S fuel' =>
      match bs with
      | [] => Raise DecodingError
      | b0 :: rest =>
          let n0 := Byte.to_N b0 in
          if (n0 <? 128)%N then Ok (PBytes [b0], rest)
          else if (n0 <? 184)%N then
            '(payload, rest') ← take_exact (n0 - 128) rest;
            match payload with
            | [b] =>
                if (Byte.to_N b <? 128)%N then Raise DecodingError
                else Ok (PBytes payload, rest')
            | _ => Ok (PBytes payload, rest')
            end
          else if (n0 <? 192)%N then
            '(len, rest1) ← decode_long_length (n0 - 183) rest;
            '(payload, rest') ← take_exact len rest1;
            Ok (PBytes payload, rest')
          else if (n0 <? 248)%N then
            '(payload, rest') ← take_exact (n0 - 192) rest;
            items ← consume_items fuel' payload;
            Ok (PSeq items, rest')
          else
            '(len, rest1) ← decode_long_length (n0 - 247) rest;
            '(payload, rest') ← take_exact len rest1;
            items ← consume_items fuel' payload;
            Ok (PSeq items, rest')
      end
  end
with consume_items (fuel : nat) (bs : bytes) : result (list pyval) :=
  match fuel with
  | O => Raise DecodingError
  | S fuel' =>
      match bs with
      | [] => Ok []
      | _ =>
          '(i, rest) ← consume_item fuel' bs;
          items ← consume_items fuel' rest;
          Ok (i :: items)
      end
  end.

(** [rlp.decode(..., strict=True)]: the whole input is one item. *)
Definition decode_raw (bs : bytes) : result pyval :=
  '(i, rest) ← consume_item (2 * length bs) bs;
  match rest with
  | [] => Ok i
  | _ => Raise DecodingError
  end.

(** *** Sedes: typed views of serial values *)

Record sedes : Type := {
  serialize : pyval → result pyval;
  deserialize : pyval → result pyval;
}.

Definition big_endian_int : sedes := {|
  serialize obj :=
    match obj with
    | PInt n =>
        if (n <? 0)%Z then Raise SerializationError
        else Ok (PBytes (int_to_big_endian (Z.to_N n)))
    | _ => Raise SerializationError
    end;
  deserialize serial :=
    match serial with
    | PBytes [] => Ok (PInt 0)
    | PBytes (b :: bs) =>
        if (Byte.to_N b =? 0)%N then Raise DeserializationError
        else Ok (PInt (Z.of_N (big_endian_to_int (b :: bs))))
    | _ => Raise DeserializationError
    end;
|}.

Definition binary : sedes := {|
  serialize obj :=
    match obj with
    | PBytes b => Ok (PBytes b)
    | PStr s => Ok (PBytes (str_to_bytes s))
    | _ => Raise SerializationError
    end;
  deserialize serial :=
    match serial with
    | PBytes b => Ok (PBytes b)
    | _ => Raise DeserializationError
    end;
|}.

Definition raw : sedes := {|
  serialize obj :=
    if serializable obj then Ok obj else Raise SerializationError;
  deserialize serial := Ok serial;
|}.

(** Element-wise application of a list of functions; the lengths have to
    agree ([strict]). *)
Fixpoint zip_apply (err : exn) (fs : list (pyval → result pyval))
    (vs : list pyval) : result (list pyval) :=
  match fs, vs with
  | [], [] => Ok []
  | f :: fs', v :: vs' =>
      y ← f v; ys ← zip_apply err fs' vs'; Ok (y :: ys)
  | _, _ => Raise err
  end.

(** [sedes.List(elements)] *)
Definition List (elements : list sedes) : sedes := {|
  serialize obj :=
    match obj with
    | PSeq l => PSeq <$> zip_apply SerializationError (serialize <$> elements) l
    | _ => Raise SerializationError
    end;
  deserialize serial :=
    match serial with
    | PSeq l =>
        PSeq <$> zip_apply DeserializationError (deserialize <$> elements) l
    | _ => Raise DeserializationError
    end;
|}.

(** [sedes.CountableList(element_sedes)] *)
Definition CountableList (element_sedes : sedes) : sedes := {|
  serialize obj :=
    match obj with
    | PSeq l => PSeq <$> mapM (serialize element_sedes) l
    | _ => Raise SerializationError
    end;
  deserialize serial :=
    match serial with
    | PSeq l => PSeq <$> mapM (deserialize element_sedes) l
    | _ => Raise DeserializationError
    end;
|}.

(** A subclass of [rlp.Serializable] with the given [fields]. *)
Definition Serializable (fields : list (string * sedes)) : sedes := {|
  serialize obj :=
    match obj with
    | PObj l =>
        PSeq <$> zip_apply SerializationError (serialize <$> fields.*2) l
    | _ => Raise SerializationError
    end;
  deserialize serial :=
    match serial with
    | PSeq l =>
        PObj <$> zip_apply DeserializationError (deserialize <$> fields.*2) l
    | _ => Raise DeserializationError
    end;
|}.

(** [rlp.encode(obj, sedes)] and [rlp.decode(rlp, sedes)] *)
Definition rlp_encode (s : sedes) (obj : pyval) : result bytes :=
  serial ← serialize s obj; encode_raw serial.

Definition rlp_decode (s : sedes) (rlp_data : bytes) : result pyval :=
  serial ← decode_raw rlp_data; deserialize s serial.

(** ** Dictionaries *)

(** A dictionary literal handed to an encoder: its items in insertion
    order (the keys of a dictionary are pairwise distinct). *)
Abbreviation pydict := (list (string * pyval)).

Fixpoint assoc {V} (key : string) (d : list (string * V)) : option V :=
  match d with
  | [] => None
  | (k, v) :: d' => if String.eqb k key then Some v else assoc key d'
  end.

(** [d[key]] *)
Definition items_getitem (d : pydict) (key : string) : result pyval :=
  match assoc key d with
  | Some v => Ok v
  | None => Raise (KeyError key)
  end.

Definition getitem (d : gmap string pyval) (key : string) : result pyval :=
  match d !! key with
  | Some v => Ok v
  | None => Raise (KeyError key)
  end.

(** [dict(pairs)], which is what the decorator [to_dict] applies to the
    pairs a generator yields: a later pair replaces an earlier one with the
    same key. *)
Definition to_dict (pairs : list (string * pyval)) : gmap string pyval :=
  foldl (λ d kv, <[kv.1 := kv.2]> d) ∅ pairs.

(** ** [evm.p2p.protocol.Command]

    Modelled from the spec: the base class [Command] lives in
    [evm/p2p/protocol.py], which is not part of the sources.  A command has
    a code and a wire layout; a fixed-shape command encodes and decodes
    "via an ordered field list: each field has a name and a
    primitive/compound codec", the payload being the list of the field
    values; a command whose layout is a countable list hands its data to
    that codec as it is.  On the wire a message is the pair of its command
    code and its payload. *)

(** Modelled from the spec: [Command.encode_payload] for an ordered field
    list.  The values of the fields are taken from the dictionary in the
    order of the list and encoded as one list. *)
Definition Command_encode_payload (structure : list (string * sedes))
    (data : pydict) : result bytes :=
  values ← mapM (λ field, items_getitem data field.1) structure;
  rlp_encode (List structure.*2) (PSeq values).

(** Modelled from the spec: [Command.decode_payload] for an ordered field
    list.  The payload is decoded as a list of that shape, and the values
    are returned under the names of their fields. *)
Definition Command_decode_payload (structure : list (string * sedes))
    (rlp_data : bytes) : result (gmap string pyval) :=
  data ← rlp_decode (List structure.*2) rlp_data;
  match data with
  | PSeq values => Ok (list_to_map (zip structure.*1 values))
  | _ => Raise TypeError
  end.

(** Modelled from the spec: [Command.encode_payload] and
    [Command.decode_payload] for a command whose structure is a countable
    list, as [Status] is. *)
Definition Command_encode_payload_list (structure : sedes) (data : pyval)
    : result bytes :=
  rlp_encode structure data.

Definition Command_decode_payload_list (structure : sedes) (rlp_data : bytes)
    : result pyval :=
  rlp_decode structure rlp_data.

(** Modelled from the spec: what a subclass of [Command] provides. *)
Record Command : Type := {
  command_id : Z;
  command_encode_payload : pydict → result bytes;
  command_decode_payload : bytes → result (gmap string pyval);
}.

(** Modelled from the spec: [Command.encode] gives the command code,
    shifted by the offset the subprotocol was given, and the encoded
    payload. *)
Definition Command_encode (cmd : Command) (cmd_id_offset : Z) (data : pydict)
    : result (Z * bytes) :=
  payload ← command_encode_payload cmd data;
  Ok (cmd_id_offset + command_id cmd, payload).

(** ** [evm/p2p/les.py] *)

Record HeadInfo : Type := {
  block_number : pyval;
  block_hash : pyval;
  total_difficulty : pyval;
  reorg_depth : pyval;
}.

Module Status.
Definition _cmd_id : Z := 0.

(** [decode_strict] is read by the base class for an ordered field list;
    the structure of [Status] is a countable list. *)
Definition decode_strict : bool := false.

Definition structure : sedes := CountableList (List [binary; raw]).

(** The sedes used for each key; [None] for the two keys that carry no
    value. *)
Definition items_sedes : list (string * option sedes) :=
  [ ("protocolVersion", Some big_endian_int);
    ("networkId", Some big_endian_int);
    ("headTd", Some big_endian_int);
    ("headHash", Some binary);
    ("headNum", Some big_endian_int);
    ("genesisHash", Some binary);
    ("serveHeaders", None);
    ("serveChainSince", Some big_endian_int);
    ("serveStateSince", Some big_endian_int);
    ("txRelay", None);
    ("flowControl/BL", Some big_endian_int);
    ("flowControl/MRC",
      Some (CountableList
              (List [big_endian_int; big_endian_int; big_endian_int])));
    ("flowControl/MRR", Some big_endian_int) ].

(** [for key, value in data] *)
Definition unpack_pair (kv : pyval) : result (pyval * pyval) :=
  match kv with
  | PSeq [key; value] => Ok (key, value)
  | PSeq _ => Raise (ValueError "unpack")
  | _ => Raise TypeError
  end.

(** [key.decode('ascii')] *)
Definition key_decode_ascii (key : pyval) : result string :=
  match key with
  | PBytes b => decode_ascii b
  | _ => Raise AttributeError
  end.

(** The pairs the body of [decode_payload] yields, in order. *)
Fixpoint decode_items (data : list pyval)
    : result (list (string * pyval)) :=
  match data with
  | [] => Ok []
  | kv :: rest =>
      '(key, value) ← unpack_pair kv;
      key ← key_decode_ascii key;
      match assoc key items_sedes with
      | None => decode_items rest
      | Some item_sedes =>
          y ← match item_sedes with
              | Some s => deserialize s value
              | None => Ok value
              end;
          ys ← decode_items rest;
          Ok ((key, y) :: ys)
      end
  end.

Definition decode_payload (rlp_data : bytes)
    : result (gmap string pyval) :=
  data ← Command_decode_payload_list structure rlp_data;
  match data with
  | PSeq l => to_dict <$> decode_items l
  | _ => Raise TypeError
  end.

(** [sorted(data.items())]: the items ordered by key.  The keys of a
    dictionary are distinct, so the order never depends on the values. *)
Definition sorted_items (data : pydict) : pydict :=
  merge_sort (λ a b, String.le a.1 b.1) data.

(** [(key, self.items_sedes[key].serialize(value))] *)
Definition encode_item (kv : string * pyval) : result pyval :=
  match assoc kv.1 items_sedes with
  | None => Raise (KeyError kv.1)
  | Some None => Raise AttributeError
  | Some (Some s) => serial ← serialize s kv.2; Ok (PSeq [PStr kv.1; serial])
  end.

Definition encode_payload (data : pydict) : result bytes :=
  response ← mapM encode_item (sorted_items data);
  Command_encode_payload_list structure (PSeq response).

Definition as_head_info (decoded : gmap string pyval) : result HeadInfo :=
  n ← getitem decoded "headNum";
  h ← getitem decoded "headHash";
  td ← getitem decoded "headTd";
  Ok {| block_number := n; block_hash := h; total_difficulty := td;
        reorg_depth := PInt 0 |}.

Definition command : Command :=
  {| command_id := _cmd_id;
     command_encode_payload := encode_payload;
     command_decode_payload := decode_payload |}.
End Status.

Module Announce.
Definition _cmd_id : Z := 1.

Definition structure : list (string * sedes) :=
  [ ("head_hash", binary);
    ("head_number", big_endian_int);
    ("head_td", big_endian_int);
    ("reorg_depth", big_endian_int);
    ("params", CountableList (List [binary; raw])) ].

Definition as_head_info (decoded : gmap string pyval) : result HeadInfo :=
  n ← getitem decoded "head_number";
  h ← getitem decoded "head_hash";
  td ← getitem decoded "head_td";
  r ← getitem decoded "reorg_depth";
  Ok {| block_number := n; block_hash := h; total_difficulty := td;
        reorg_depth := r |}.

Definition command : Command :=
  {| command_id := _cmd_id;
     command_encode_payload := Command_encode_payload structure;
     command_decode_payload := Command_decode_payload structure |}.
End Announce.

Module GetBlockHeadersQuery.
Definition fields : list (string * sedes) :=
  [ ("block", big_endian_int);
    ("max_headers", big_endian_int);
    ("skip", big_endian_int);
    ("reverse", big_endian_int) ].

Definition sedes : sedes := Serializable fields.

(** [GetBlockHeadersQuery(block, max_headers, skip, reverse)]; the
    [bool] passed for [reverse] is the integer 1 or 0. *)
Definition new (block max_headers skip : Z) (reverse : bool) : pyval :=
  PObj [PInt block; PInt max_headers; PInt skip; PInt (Z.b2z reverse)].
End GetBlockHeadersQuery.

Module GetBlockHeaders.
Definition _cmd_id : Z := 2.

Definition structure : list (string * sedes) :=
  [ ("request_id", big_endian_int);
    ("query", GetBlockHeadersQuery.sedes) ].

Definition command : Command :=
  {| command_id := _cmd_id;
     command_encode_payload := Command_encode_payload structure;
     command_decode_payload := Command_decode_payload structure |}.
End GetBlockHeaders.

Module BlockHeaders.
Definition _cmd_id : Z := 3.

(** [BlockHeader] is the sedes of [evm.rlp.headers.BlockHeader], which is
    opaque to this module. *)
Definition structure (BlockHeader : sedes) : list (string * sedes) :=
  [ ("request_id", big_endian_int);
    ("buffer_value", big_endian_int);
    ("headers", CountableList BlockHeader) ].

Definition command (BlockHeader : sedes) : Command :=
  {| command_id := _cmd_id;
     command_encode_payload := Command_encode_payload (structure BlockHeader);
     command_decode_payload := Command_decode_payload (structure BlockHeader) |}.
End BlockHeaders.

Module GetBlockBodies.
Definition _cmd_id : Z := 4.

Definition structure : list (string * sedes) :=
  [ ("request_id", big_endian_int);
    ("block_hashes", CountableList binary) ].

Definition command : Command :=
  {| command_id := _cmd_id;
     command_encode_payload := Command_encode_payload structure;
     command_decode_payload := Command_decode_payload structure |}.
End GetBlockBodies.

Module LESBlockBody.
(** [BaseTransaction] is the sedes of
    [evm.rlp.transactions.BaseTransaction]. *)
Definition fields (BaseTransaction BlockHeader : sedes)
    : list (string * sedes) :=
  [ ("transactions", CountableList BaseTransaction);
    ("uncles", CountableList BlockHeader) ].

Definition sedes (BaseTransaction BlockHeader : sedes) : sedes :=
  Serializable (fields BaseTransaction BlockHeader).
End LESBlockBody.

Module BlockBodies.
Definition _cmd_id : Z := 5.

Definition structure (BaseTransaction BlockHeader : sedes)
    : list (string * sedes) :=
  [ ("request_id", big_endian_int);
    ("buffer_value", big_endian_int);
    ("bodies",
      CountableList (LESBlockBody.sedes BaseTransaction BlockHeader)) ].

Definition command (BaseTransaction BlockHeader : sedes) : Command :=
  {| command_id := _cmd_id;
     command_encode_payload :=
       Command_encode_payload (structure BaseTransaction BlockHeader);
     command_decode_payload :=
       Command_decode_payload (structure BaseTransaction BlockHeader) |}.
End BlockBodies.

(** *** The protocol object and its effects *)

(** What [self.peer] supplies: [peer.network_id] and [peer.genesis.hash]. *)
Record Peer : Type := {
  network_id : Z;
  genesis_hash : bytes;
}.

(** The calls to [self.logger.debug], by call site. *)
Inductive log_record : Type :=
  | SendingStatus (resp : pydict)
  | NetworkDoesNotMatch (theirs : pyval) (ours : Z)
  | GenesisDoesNotMatch (theirs_hex : bytes) (ours : bytes).

(** The protocol object: the peer it talks to, the offset of its command
    codes, and what it has done so far, namely the messages handed to the
    transport and the records logged, oldest first. *)
Record Protocol : Type := {
  peer : Peer;
  cmd_id_offset : Z;
  outbox : list (Z * bytes);
  logged : list log_record;
}.

(** A method of the protocol object: it returns or raises, and leaves the
    object in a new state. *)
Definition action (A : Type) : Type := Protocol → result A * Protocol.

Global Instance action_ret : MRet action := λ _ a self, (Ok a, self).
Global Instance action_bind : MBind action := λ _ _ f m self,
  match m self with
  | (Ok a, self') => f a self'
  | (Raise e, self') => (Raise e, self')
  end.

Definition raise {A} (e : exn) : action A := λ self, (Raise e, self).
Definition lift {A} (r : result A) : action A := λ self, (r, self).
Definition self_peer : action Peer := λ self, (Ok (peer self), self).
Definition self_cmd_id_offset : action Z :=
  λ self, (Ok (cmd_id_offset self), self).

Definition with_logged (self : Protocol) (r : log_record) : Protocol :=
  {| peer := peer self; cmd_id_offset := cmd_id_offset self;
     outbox := outbox self; logged := logged self ++ [r] |}.

Definition with_sent (self : Protocol) (msg : Z * bytes) : Protocol :=
  {| peer := peer self; cmd_id_offset := cmd_id_offset self;
     outbox := outbox self ++ [msg]; logged := logged self |}.

Definition logger_debug (r : log_record) : action unit := λ self,
  (Ok tt, with_logged self r).

(** Modelled from the spec: [Protocol.send] is not part of the sources;
    [self.send(header, body)] hands the command code and the encoded
    payload to the transport. *)
Definition send (header : Z) (body : bytes) : action unit := λ self,
  (Ok tt, with_sent self (header, body)).

(** [eth_utils.encode_hex] takes a byte string; the hexadecimal text it
    returns is held as the bytes it spells. *)
Definition encode_hex (v : pyval) : result bytes :=
  match v with
  | PBytes b => Ok b
  | _ => Raise TypeError
  end.

Module head_info.
(** The argument of [send_handshake], read through these attributes. *)
Record t : Type := {
  total_difficulty : pyval;
  block_hash : pyval;
  block_number : pyval;
  genesis_hash : pyval;
}.
End head_info.

Module LESProtocol.
Definition name : bytes := list_byte_of_string "les".
Definition version : Z := 1.
Definition cmd_length : Z := 15.

Definition _commands (BlockHeader BaseTransaction : sedes) : list Command :=
  [ Status.command; Announce.command; BlockHeaders.command BlockHeader;
    BlockBodies.command BaseTransaction BlockHeader ].

Definition handshake_msg_type : Command := Status.command.

(** [header, body = cmd.encode(data); self.send(header, body)] *)
Definition send_command (cmd : Command) (data : pydict) : action unit :=
  offset ← self_cmd_id_offset;
  '(header, body) ← lift (Command_encode cmd offset data);
  send header body.

Definition send_handshake (head_info : head_info.t) : action unit :=
  p ← self_peer;
  let resp : pydict :=
    [ ("protocolVersion", PInt version);
      ("networkId", PInt (network_id p));
      ("headTd", head_info.total_difficulty head_info);
      ("headHash", head_info.block_hash head_info);
      ("headNum", head_info.block_number head_info);
      ("genesisHash", head_info.genesis_hash head_info) ] in
  send_command Status.command resp;;
  logger_debug (SendingStatus resp).

Definition process_handshake (decoded_msg : gmap string pyval)
    : action unit :=
  p ← self_peer;
  theirs ← lift (getitem decoded_msg "networkId");
  if py_ne theirs (PInt (network_id p)) then
    logger_debug (NetworkDoesNotMatch theirs (network_id p));;
    raise (HandshakeFailure other)
  else
    genesis ← lift (getitem decoded_msg "genesisHash");
    if py_ne genesis (PBytes (genesis_hash p)) then
      hex ← lift (encode_hex genesis);
      logger_debug (GenesisDoesNotMatch hex (genesis_hash p));;
      raise (HandshakeFailure other)
    else mret tt.

Section limits.
(** [MAX_BODIES_FETCH] and [MAX_HEADERS_FETCH] come from
    [evm/p2p/constants.py]. *)
Variables MAX_BODIES_FETCH MAX_HEADERS_FETCH : Z.

Definition too_many_bodies : exn :=
  ValueError ("Cannot ask for more than " +:+ pretty MAX_BODIES_FETCH
              +:+ " blocks in a single request").

Definition too_many_headers : exn :=
  ValueError ("Cannot ask for more than " +:+ pretty MAX_HEADERS_FETCH
              +:+ " block headers in a single request").

Definition send_get_block_bodies (block_hashes : list bytes)
    (request_id : Z) : action unit :=
  if (Z.of_nat (length block_hashes) >? MAX_BODIES_FETCH)%Z then
    raise too_many_bodies
  else
    let data : pydict :=
      [ ("request_id", PInt request_id);
        ("block_hashes", PSeq (PBytes <$> block_hashes)) ] in
    send_command GetBlockBodies.command data.

(** [reverse] defaults to [True] when the caller leaves it out. *)
Definition send_get_block_headers (block_number max_headers
    request_id : Z) (reverse : bool) : action unit :=
  if (max_headers >? MAX_HEADERS_FETCH)%Z then raise too_many_headers
  else
    let cmd := GetBlockHeaders.command in
    let skip := 0 in
    let data : pydict :=
      [ ("request_id", PInt request_id);
        ("query",
          GetBlockHeadersQuery.new block_number max_headers skip
            reverse) ] in
    send_command cmd data.
End limits.
End LESProtocol.

(** * The vocabulary of the statements *)

(** ** Sizes on the wire *)

(** An upper bound on the number of bytes a value takes on the wire. *)
Fixpoint wire_bound (v : pyval) : N :=
  match v with
  | PInt n => 9 + N.size (Z.to_N n)
  | PStr s => 9 + blen (str_to_bytes s)
  | PBytes b => 9 + blen b
  | PSeq l => 9 + foldr N.add 0 (wire_bound <$> l)
  | PObj l => 9 + foldr N.add 0 (wire_bound <$> l)
  end%N.

Definition wire_bounds (l : list pyval) : N :=
  foldr N.add 0%N (wire_bound <$> l).

(** An upper bound on the size of the payload made of the values of a
    dictionary. *)
Definition message_bound (data : pydict) : N := wire_bound (PSeq data.*2).

(** The error of [length_prefix]. *)
Definition length_error : exn := ValueError "Length greater than 256**8".

(** ** The domains of the sedes *)

Definition dom_uint (v : pyval) : bool :=
  match v with
  | PInt n => (0 <=? n)%Z
  | _ => false
  end.

Definition dom_bytes (v : pyval) : bool :=
  match v with
  | PBytes _ => true
  | _ => false
  end.

Fixpoint zip_all (Ds : list (pyval → bool)) (l : list pyval) : bool :=
  match Ds, l with
  | [], [] => true
  | D :: Ds', x :: l' => D x && zip_all Ds' l'
  | _, _ => false
  end.

Definition dom_tuple (Ds : list (pyval → bool)) (v : pyval) : bool :=
  match v with
  | PSeq l => zip_all Ds l
  | _ => false
  end.

Definition dom_seq (D : pyval → bool) (v : pyval) : bool :=
  match v with
  | PSeq l => forallb D l
  | _ => false
  end.

Definition dom_obj (Ds : list (pyval → bool)) (v : pyval) : bool :=
  match v with
  | PObj l => zip_all Ds l
  | _ => false
  end.

(** On its domain [D] the sedes [s] serialises to a serial value that is
    no larger than its argument, and deserialises that back. *)
Definition codec_ok (s : sedes) (D : pyval → bool) : Prop :=
  ∀ v, D v = true →
    ∃ w, serialize s v = Ok w ∧ serializable w = true
         ∧ (wire_bound w ≤ wire_bound v)%N ∧ deserialize s w = Ok v.

(** ** The two passes of the Status decoder *)

(** The outer list of a Status payload, as the first pass delivers it: a
    sequence of two-element sequences, a byte string and a raw value. *)
Definition wire_pair (kv : bytes * pyval) : pyval := PSeq [PBytes kv.1; kv.2].

Definition wire_pairs (pairs : list (bytes * pyval)) : list pyval :=
  wire_pair <$> pairs.

(** What the second pass does with the value of a key: nothing for a key
    that is not in the table, the raw value for a key without sedes, the
    sedes of the key otherwise. *)
Definition decode_value (key : string) (value : pyval)
    : option (result pyval) :=
  match assoc key Status.items_sedes with
  | None => None
  | Some None => Some (Ok value)
  | Some (Some s) => Some (deserialize s value)
  end.

Definition is_known (kv : bytes * pyval) : bool :=
  bool_decide (is_Some (assoc (string_of_list_byte kv.1) Status.items_sedes)).

Definition has_ascii_key (kv : bytes * pyval) : Prop :=
  forallb is_ascii_byte kv.1 = true.

(** A pair the second pass gets through: its key is ASCII and, if the key
    is known, its value is one the sedes of the key accepts. *)
Definition pair_ok (kv : bytes * pyval) : Prop :=
  has_ascii_key kv
  ∧ ∀ r, decode_value (string_of_list_byte kv.1) kv.2 = Some r → is_Ok r.

Definition decoded_pair (kv : bytes * pyval) : option (string * pyval) :=
  match decode_value (string_of_list_byte kv.1) kv.2 with
  | Some (Ok y) => Some (string_of_list_byte kv.1, y)
  | _ => None
  end.

(** ** The order of the Status items *)

Definition key_le (a b : string * pyval) : Prop := String.le a.1 b.1.

(** ** Requests *)

(** The requests a caller asks for.  A request for headers has the
    request id and a query made of the block number, the number of
    headers, a skip of 0 and the direction, 1 for reverse and 0 for
    forward; a request for bodies has the request id and the block
    hashes. *)
Definition headers_request (block_number max_headers request_id : Z)
    (reverse : bool) : pydict :=
  [ ("request_id", PInt request_id);
    ("query",
      PObj [ PInt block_number; PInt max_headers; PInt 0;
             PInt (if reverse then 1 else 0) ]) ].

Definition bodies_request (block_hashes : list bytes) (request_id : Z)
    : pydict :=
  [ ("request_id", PInt request_id);
    ("block_hashes", PSeq (PBytes <$> block_hashes)) ].

(** ** Declared types and round trips *)

(** The declared type of each known key of the Status message. *)
Inductive value_type : Set :=
  | TUint
  | TBytes
  | TFlag
  | TCostTable.

Definition items_type : list (string * value_type) :=
  [ ("protocolVersion", TUint);
    ("networkId", TUint);
    ("headTd", TUint);
    ("headHash", TBytes);
    ("headNum", TUint);
    ("genesisHash", TBytes);
    ("serveHeaders", TFlag);
    ("serveChainSince", TUint);
    ("serveStateSince", TUint);
    ("txRelay", TFlag);
    ("flowControl/BL", TUint);
    ("flowControl/MRC", TCostTable);
    ("flowControl/MRR", TUint) ].

Definition in_domain (t : value_type) : pyval → bool :=
  match t with
  | TUint => dom_uint
  | TBytes => dom_bytes
  | TFlag => serializable
  | TCostTable => dom_seq (dom_tuple [dom_uint; dom_uint; dom_uint])
  end.

(** An item of a Status dictionary: a known key that has a sedes, with a
    value of the declared type of the key. *)
Definition typed_item (kv : string * pyval) : Prop :=
  ∃ t, assoc kv.1 items_type = Some t ∧ t ≠ TFlag ∧ in_domain t kv.2 = true.

Definition status_tuples (data : pydict) : list pyval :=
  (λ kv, PSeq [PStr kv.1; kv.2]) <$> data.

Definition status_bound (data : pydict) : N :=
  wire_bound (PSeq (status_tuples data)).

Definition status_valid (data : pydict) : Prop :=
  NoDup data.*1 ∧ Forall typed_item data ∧ (status_bound data < 2 ^ 64)%N.

(** A dictionary for a fixed-shape command: it has the fields of
    [structure] and no other, each value in the domain of its field. *)
Definition fixed_valid (structure : list (string * sedes))
    (Ds : list (pyval → bool)) (data : pydict) : Prop :=
  (∀ key, key ∈ data.*1 → key ∈ structure.*1)
  ∧ ∃ values,
      mapM (λ field, items_getitem data field.1) structure = Ok values
      ∧ zip_all Ds values = true
      ∧ (wire_bound (PSeq values) < 2 ^ 64)%N.

Definition roundtrips (cmd : Command) (valid : pydict → Prop) : Prop :=
  ∀ data, valid data →
    ∃ payload,
      command_encode_payload cmd data = Ok payload
      ∧ command_decode_payload cmd payload = Ok (list_to_map data).

(** The declared types of the fields of the fixed-shape commands;
    [header] and [transaction] are the domains of the sedes [BlockHeader]
    and [BaseTransaction]. *)
Definition Announce_types : list (pyval → bool) :=
  [ dom_bytes; dom_uint; dom_uint; dom_uint;
    dom_seq (dom_tuple [dom_bytes; serializable]) ].

Definition GetBlockHeaders_types : list (pyval → bool) :=
  [ dom_uint; dom_obj [dom_uint; dom_uint; dom_uint; dom_uint] ].

Definition BlockHeaders_types (header : pyval → bool)
    : list (pyval → bool) :=
  [ dom_uint; dom_uint; dom_seq header ].

Definition GetBlockBodies_types : list (pyval → bool) :=
  [ dom_uint; dom_seq dom_bytes ].

Definition BlockBodies_types (transaction header : pyval → bool)
    : list (pyval → bool) :=
  [ dom_uint; dom_uint;
    dom_seq (dom_obj [dom_seq transaction; dom_seq header]) ].

(** ** Examples *)

(** The bytes of a serial value, for the payloads of the examples. *)
Definition encoded (v : pyval) : bytes :=
  match encode_raw v with
  | Ok enc => enc
  | Raise _ => []
  end.

Definition example_protocol : Protocol :=
  {| peer := {| network_id := 1; genesis_hash := [xaa] |};
     cmd_id_offset := 16; outbox := []; logged := [] |}.

Definition example_status : gmap string pyval :=
  <["networkId" := PInt 1]>
    (<["genesisHash" := PBytes [xaa]]>
      (<["headNum" := PInt 150]>
        (<["headHash" := PBytes [x01; x02]]>
          (<["headTd" := PInt 5000]> ∅)))).

Definition payload_announce : bytes :=
  Eval vm_compute in
    encoded (PSeq [PBytes [x0a]; PBytes [x07]; PBytes [x46]; PBytes [x02];
                   PSeq []]).

Definition example_announce : gmap string pyval :=
  list_to_map [ ("head_hash", PBytes [x0a]); ("head_number", PInt 7);
                ("head_td", PInt 70); ("reorg_depth", PInt 2);
                ("params", PSeq []) ].

Definition wrong_network : gmap string pyval :=
  <["networkId" := PInt 2]> (<["genesisHash" := PBytes [xaa]]> ∅).

Definition wrong_genesis : gmap string pyval :=
  <["networkId" := PInt 1]> (<["genesisHash" := PBytes [xbb]]> ∅).

Definition status_in_order : pydict :=
  [("headNum", PInt 100); ("networkId", PInt 1); ("protocolVersion", PInt 1)].

Definition status_out_of_order : pydict :=
  [("protocolVersion", PInt 1); ("headNum", PInt 100); ("networkId", PInt 1)].

Definition status_with_flag : pydict :=
  [("txRelay", PBytes []); ("networkId", PInt 1)].

Definition status_with_unknown_key : pydict :=
  [("zzz", PBytes []); ("networkId", PInt 1)].

Definition status_from_handshake : pydict :=
  [ ("protocolVersion", PInt 1);
    ("networkId", PInt 1);
    ("headTd", PInt 5000);
    ("headHash", PBytes [x01; x02]);
    ("headNum", PInt 150);
    ("genesisHash", PBytes [xaa]);
    ("flowControl/MRC", PSeq [PSeq [PInt 2; PInt 300; PInt 0]]) ].

Definition payload_non_ascii_key : bytes :=
  Eval vm_compute in
    encoded (PSeq [ PSeq [PBytes (str_to_bytes "networkId"); PBytes [x01]];
                    PSeq [PBytes [xff]; PBytes []] ]).

Definition payload_duplicate_key : bytes :=
  Eval vm_compute in
    encoded (PSeq [ PSeq [PBytes (str_to_bytes "headNum"); PBytes [x07]];
                    PSeq [PBytes (str_to_bytes "future"); PSeq []];
                    PSeq [PBytes (str_to_bytes "headNum"); PBytes [x09]] ]).

Definition payload_duplicate_rejected : bytes :=
  Eval vm_compute in
    encoded (PSeq [ PSeq [PBytes (str_to_bytes "headNum");
                          PBytes [x00; x01]];
                    PSeq [PBytes (str_to_bytes "headNum"); PBytes [x09]] ]).

Definition payload_unknown_keys : bytes :=
  Eval vm_compute in
    encoded (PSeq [ PSeq [PBytes (str_to_bytes "future"); PSeq [PBytes []]];
                    PSeq [PBytes (str_to_bytes "headNum"); PBytes [x09]];
                    PSeq [PBytes (str_to_bytes "announceType"); PBytes [x01]]
                  ]).

Definition payload_rejected_value : bytes :=
  Eval vm_compute in
    encoded (PSeq [ PSeq [PBytes (str_to_bytes "future"); PBytes []];
                    PSeq [PBytes (str_to_bytes "networkId");
                          PBytes [x00; x01]] ]).

Definition payload_key_ff : bytes :=
  Eval vm_compute in encoded (PSeq [ PSeq [PBytes [xff]; PBytes []] ]).

Definition payload_serve_headers : bytes :=
  Eval vm_compute in
    encoded (PSeq [ PSeq [PBytes (str_to_bytes "serveHeaders"); PBytes []] ]).

Definition example_hashes : list bytes := [[xaa; x01]; [xbb; x02]].

(** ** The handshake message *)

(** The dictionary [send_handshake] builds for the peer [p] and the
    argument [head_info]. *)
Definition handshake_resp (p : Peer) (head_info : head_info.t) : pydict :=
  [ ("protocolVersion", PInt LESProtocol.version);
    ("networkId", PInt (network_id p));
    ("headTd", head_info.total_difficulty head_info);
    ("headHash", head_info.block_hash head_info);
    ("headNum", head_info.block_number head_info);
    ("genesisHash", head_info.genesis_hash head_info) ].

(** The attributes of [head_info] have the types of the keys they are
    sent under. *)
Definition head_info_typed (head_info : head_info.t) : Prop :=
  dom_uint (head_info.total_difficulty head_info) = true
  ∧ dom_bytes (head_info.block_hash head_info) = true
  ∧ dom_uint (head_info.block_number head_info) = true
  ∧ dom_bytes (head_info.genesis_hash head_info) = true.

(** Whatever the sedes [s] deserialises is in [D]. *)
Definition codec_lands (s : sedes) (D : pyval → bool) : Prop :=
  ∀ w v, deserialize s w = Ok v → D v = true.

Definition example_head_info : head_info.t :=
  {| head_info.total_difficulty := PInt 5000;
     head_info.block_hash := PBytes [x01; x02];
     head_info.block_number := PInt 150;
     head_info.genesis_hash := PBytes [xaa] |}.

Definition other_network_protocol : Protocol :=
  {| peer := {| network_id := 3; genesis_hash := [xaa] |};
     cmd_id_offset := 16; outbox := []; logged := [] |}.

Definition payload_handshake : bytes :=
  Eval vm_compute in
    match Status.encode_payload
            (handshake_resp (peer example_protocol) example_head_info) with
    | Ok payload => payload
    | Raise _ => []
    end.

Definition decoded_unknown_keys : gmap string pyval :=
  Eval vm_compute in
    match Status.decode_payload payload_unknown_keys with
    | Ok m => m
    | Raise _ => ∅
    end.

Definition payload_leading_zero : bytes :=
  Eval vm_compute in
    encoded (PSeq [ PSeq [PBytes (str_to_bytes "networkId");
                          PBytes [x00; x01]] ]).

Definition decoded_handshake : gmap string pyval :=
  Eval vm_compute in
    match Status.decode_payload payload_handshake with
    | Ok m => m
    | Raise _ => ∅
    end.

Definition payload_status_in_order : bytes :=
  Eval vm_compute in
    match Status.encode_payload status_in_order with
    | Ok payload => payload
    | Raise _ => []
    end.

Definition announce_data : pydict :=
  [ ("head_hash", PBytes [x0a]); ("head_number", PInt 7);
    ("head_td", PInt 70); ("reorg_depth", PInt 2); ("params", PSeq []) ].

(** * Properties *)

(** ** The result monad *)

Lemma bind_Ok {A B} (f : A → result B) (m : result A) (b : B) :
  m ≫= f = Ok b ↔ ∃ a, m = Ok a ∧ f a = Ok b.
Proof.
  destruct m as [a|e]; simpl.
  - split; [eauto | by intros (? & [= <-] & ?)].
  - split; [done | by intros (? & ? & _)].
Qed.

Lemma fmap_Ok {A B} (f : A → B) (m : result A) (b : B) :
  f <$> m = Ok b ↔ ∃ a, m = Ok a ∧ b = f a.
Proof.
  destruct m as [a|e]; simpl.
  - split; [intros [= <-]; eauto | by intros (? & [= <-] & ->)].
  - split; [done | by intros (? & ? & _)].
Qed.

Lemma mapM_Ok_Forall2 {A B} (f : A → result B) (l : list A) (k : list B) :
  mapM f l = Ok k ↔ Forall2 (λ x y, f x = Ok y) l k.
Proof.
  revert k. induction l as [|x l IH]; intros k; simpl.
  - split; [intros [= <-]; constructor | by inversion 1].
  - split.
    + intros (y & Hy & (k' & Hk' & [= <-])%bind_Ok)%bind_Ok.
      constructor; [done | by apply IH].
    + inversion 1 as [|? y ? k' Hy Hk']; subst.
      rewrite Hy. simpl. apply IH in Hk'. by rewrite Hk'.
Qed.

(** ** Equality of values *)

Lemma all2_eq {A} (f : A → A → bool) (l1 l2 : list A) :
  Forall (λ x, ∀ y, f x y = true ↔ x = y) l1 →
  all2 f l1 l2 = true ↔ l1 = l2.
Proof.
  intros H. revert l2. induction H as [|x l1 Hx _ IH]; intros [|y l2]; simpl;
    try (split; (done || discriminate)).
  rewrite andb_true_iff, Hx, IH. split; [by intros [-> ->] | by intros [= -> ->]].
Qed.

Lemma py_eq_true (a b : pyval) : py_eq a b = true ↔ a = b.
Proof.
  revert b. induction a as [n|s|bs|l IH|l IH] using pyval_nested_ind;
    intros [m|t|cs|k|k]; simpl; try (split; (done || discriminate)).
  - rewrite Z.eqb_eq. split; [by intros -> | by intros [= ->]].
  - rewrite String.eqb_eq. split; [by intros -> | by intros [= ->]].
  - unfold bytes_eqb. rewrite bool_decide_eq_true.
    split; [by intros -> | by intros [= ->]].
  - rewrite (all2_eq _ _ _ IH). split; [by intros -> | by intros [= ->]].
  - rewrite (all2_eq _ _ _ IH). split; [by intros -> | by intros [= ->]].
Qed.

Lemma py_ne_true (a b : pyval) : py_ne a b = true ↔ a ≠ b.
Proof.
  unfold py_ne. rewrite negb_true_iff, <-not_true_iff_false.
  by rewrite py_eq_true.
Qed.

Lemma py_ne_false (a b : pyval) : py_ne a b = false ↔ a = b.
Proof.
  unfold py_ne. rewrite negb_false_iff. apply py_eq_true.
Qed.

(** ** Big-endian integers *)

Lemma to_N_byte_of_N (n : N) : (n < 256)%N → Byte.to_N (byte_of_N n) = n.
Proof.
  intros Hn. unfold byte_of_N.
  destruct (Byte.of_N n) as [b|] eqn:Hb.
  - by apply Byte.to_of_N.
  - apply Byte.of_N_None_iff in Hb. lia.
Qed.

Lemma be_fold_acc (bs : bytes) (acc : N) :
  fold_left (fun acc b => (acc * 256 + Byte.to_N b)%N) bs acc
  = (acc * 256 ^ blen bs + big_endian_to_int bs)%N.
Proof.
  unfold big_endian_to_int, blen. revert acc.
  induction bs as [|b bs IH]; intros acc; simpl length; simpl fold_left.
  - simpl. lia.
  - rewrite IH. rewrite (IH (0 * 256 + Byte.to_N b)%N).
    rewrite Nat2N.inj_succ, N.pow_succ_r'. lia.
Qed.

Lemma big_endian_to_int_cons (b : byte) (bs : bytes) :
  big_endian_to_int (b :: bs)
  = (Byte.to_N b * 256 ^ blen bs + big_endian_to_int bs)%N.
Proof.
  unfold big_endian_to_int at 1. simpl fold_left. by rewrite be_fold_acc.
Qed.

Lemma be_digits_value (fuel : nat) (n : N) (acc : bytes) :
  (n < 2 ^ N.of_nat fuel)%N →
  big_endian_to_int (be_digits fuel n acc)
  = (n * 256 ^ blen acc + big_endian_to_int acc)%N.
Proof.
  revert n acc. induction fuel as [|fuel IH]; intros n acc Hn.
  - simpl in *. assert (n = 0%N) as -> by lia. lia.
  - simpl be_digits. destruct (N.eqb_spec n 0%N) as [->|Hn0]; [lia|].
    rewrite IH.
    + rewrite big_endian_to_int_cons.
      rewrite to_N_byte_of_N by (apply N.mod_lt; lia).
      unfold blen. simpl length. rewrite Nat2N.inj_succ, N.pow_succ_r'.
      pose proof (N.div_mod n 256 ltac:(lia)). nia.
    + rewrite Nat2N.inj_succ, N.pow_succ_r' in Hn.
      apply N.Div0.div_lt_upper_bound. lia.
Qed.

Lemma big_endian_to_int_to_big_endian (n : N) :
  big_endian_to_int (int_to_big_endian n) = n.
Proof.
  unfold int_to_big_endian. rewrite be_digits_value.
  - change (blen []) with 0%N. change (big_endian_to_int []) with 0%N. lia.
  - rewrite N2Nat.id. apply N.size_gt.
Qed.

Lemma be_digits_head (fuel : nat) (n : N) (acc : bytes) :
  n ≠ 0%N → (n < 2 ^ N.of_nat fuel)%N →
  ∃ b ds, be_digits fuel n acc = b :: ds ++ acc ∧ Byte.to_N b ≠ 0%N.
Proof.
  revert n acc. induction fuel as [|fuel IH]; intros n acc Hn0 Hn.
  - simpl in Hn. lia.
  - simpl be_digits. destruct (N.eqb_spec n 0%N) as [|_]; [done|].
    destruct (N.eq_dec (n / 256)%N 0%N) as [Hq|Hq].
    + exists (byte_of_N (n mod 256)%N), [].
      rewrite Hq. split.
      * by destruct fuel.
      * rewrite to_N_byte_of_N by (apply N.mod_lt; lia).
        pose proof (N.div_mod n 256 ltac:(lia)). lia.
    + destruct (IH (n / 256)%N (byte_of_N (n mod 256)%N :: acc) Hq)
        as (b & ds & -> & Hb).
      { rewrite Nat2N.inj_succ, N.pow_succ_r' in Hn.
        apply N.Div0.div_lt_upper_bound. lia. }
      exists b, (ds ++ [byte_of_N (n mod 256)%N]).
      by rewrite <-app_assoc.
Qed.

Lemma int_to_big_endian_head (n : N) :
  n ≠ 0%N →
  ∃ b ds, int_to_big_endian n = b :: ds ∧ Byte.to_N b ≠ 0%N.
Proof.
  intros Hn. unfold int_to_big_endian.
  destruct (be_digits_head (N.to_nat (N.size n)) n [] Hn) as (b & ds & -> & Hb).
  - rewrite N2Nat.id. apply N.size_gt.
  - exists b, ds. by rewrite app_nil_r.
Qed.

Lemma be_digits_length (fuel : nat) (n : N) (acc : bytes) (k : nat) :
  (n < 256 ^ N.of_nat k)%N →
  (length (be_digits fuel n acc) ≤ k + length acc)%nat.
Proof.
  revert n acc k. induction fuel as [|fuel IH]; intros n acc k Hn; simpl.
  - lia.
  - destruct (N.eqb_spec n 0%N) as [|Hn0]; [lia|].
    destruct k as [|k]; [simpl in Hn; lia|].
    etrans; [apply (IH _ _ k)|simpl; lia].
    rewrite Nat2N.inj_succ, N.pow_succ_r' in Hn.
    apply N.Div0.div_lt_upper_bound. lia.
Qed.

Lemma int_to_big_endian_length (n : N) (k : nat) :
  (n < 256 ^ N.of_nat k)%N → (length (int_to_big_endian n) ≤ k)%nat.
Proof.
  intros Hn. unfold int_to_big_endian.
  pose proof (be_digits_length (N.to_nat (N.size n)) n [] k Hn) as H.
  simpl in H. lia.
Qed.

(** ** The wire format on the usual examples *)

Example encode_raw_dog :
  encode_raw (PBytes (str_to_bytes "dog")) = Ok ([x83] ++ str_to_bytes "dog").
Proof. reflexivity. Qed.

Example encode_raw_cat_dog :
  encode_raw (PSeq [PBytes (str_to_bytes "cat"); PBytes (str_to_bytes "dog")])
  = Ok ([xc8; x83] ++ str_to_bytes "cat" ++ [x83] ++ str_to_bytes "dog").
Proof. reflexivity. Qed.

Example encode_raw_empty :
  encode_raw (PBytes []) = Ok [x80] ∧ encode_raw (PSeq []) = Ok [xc0].
Proof. by split. Qed.

Example rlp_encode_1024 :
  rlp_encode big_endian_int (PInt 1024) = Ok [x82; x04; x00]
  ∧ rlp_decode big_endian_int [x82; x04; x00] = Ok (PInt 1024).
Proof. by split. Qed.

Example encode_raw_long_string :
  encode_raw (PBytes (replicate 56 x61))
  = Ok ([xb8; x38] ++ replicate 56 x61).
Proof. reflexivity. Qed.

Example decode_raw_nested :
  decode_raw [xc7; xc0; xc1; xc0; xc3; xc0; xc1; xc0]
  = Ok (PSeq [PSeq []; PSeq [PSeq []]; PSeq [PSeq []; PSeq [PSeq []]]]).
Proof. reflexivity. Qed.

Example decode_raw_not_canonical :
  decode_raw [x81; x05] = Raise DecodingError
  ∧ decode_raw [xb8; x01; x61] = Raise DecodingError
  ∧ decode_raw [x83; x61] = Raise DecodingError
  ∧ decode_raw [x80; x80] = Raise DecodingError.
Proof. by repeat split. Qed.

(** ** The wire format: decoding undoes encoding *)

Lemma blen_app (a b : bytes) : blen (a ++ b) = (blen a + blen b)%N.
Proof. unfold blen. rewrite length_app. lia. Qed.

Lemma take_exact_app (bs rest : bytes) :
  take_exact (blen bs) (bs ++ rest) = Ok (bs, rest).
Proof.
  unfold take_exact. rewrite blen_app.
  destruct (N.leb_spec (blen bs) (blen bs + blen rest)) as [_|]; [|lia].
  unfold blen. rewrite Nat2N.id.
  by rewrite take_app_length, drop_app_length.
Qed.

Lemma length_prefix_Ok (len offset : N) (p : bytes) :
  length_prefix len offset = Ok p →
  (len < 56 ∧ p = [byte_of_N (offset + len)])%N
  ∨ (56 ≤ len < 2 ^ 64
     ∧ p = byte_of_N (offset + 55 + blen (int_to_big_endian len))
           :: int_to_big_endian len)%N.
Proof.
  unfold length_prefix.
  destruct (N.ltb_spec len 56); [intros [= <-]; by left|].
  destruct (N.ltb_spec len (2 ^ 64)); [intros [= <-]; by right|done].
Qed.

Lemma long_length_size (len : N) :
  (56 ≤ len < 2 ^ 64)%N → (1 ≤ blen (int_to_big_endian len) ≤ 8)%N.
Proof.
  intros Hlen.
  destruct (int_to_big_endian_head len) as (b & ds & Hds & _); [lia|].
  pose proof (int_to_big_endian_length len 8) as Hle.
  unfold blen. rewrite Hds in *. simpl length in *.
  split; [lia|]. change (256 ^ N.of_nat 8)%N with (2 ^ 64)%N in Hle. lia.
Qed.

Lemma decode_long_length_encoded (len : N) (rest : bytes) :
  (56 ≤ len)%N →
  decode_long_length (blen (int_to_big_endian len))
    (int_to_big_endian len ++ rest) = Ok (len, rest).
Proof.
  intros Hlen. unfold decode_long_length. rewrite take_exact_app. simpl.
  destruct (int_to_big_endian_head len) as (b & ds & Hds & Hb); [lia|].
  rewrite Hds. rewrite <-Hds.
  destruct (N.eqb_spec (Byte.to_N b) 0%N) as [|_]; [done|].
  rewrite big_endian_to_int_to_big_endian.
  by destruct (N.ltb_spec len 56); [lia|].
Qed.

Lemma consume_item_unfold (fuel : nat) (b0 : byte) (rest : bytes) :
  consume_item (S fuel) (b0 :: rest) =
    let n0 := Byte.to_N b0 in
    if (n0 <? 128)%N then Ok (PBytes [b0], rest)
    else if (n0 <? 184)%N then
      '(payload, rest') ← take_exact (n0 - 128) rest;
      match payload with
      | [b] =>
          if (Byte.to_N b <? 128)%N then Raise DecodingError
          else Ok (PBytes payload, rest')
      | _ => Ok (PBytes payload, rest')
      end
    else if (n0 <? 192)%N then
      '(len, rest1) ← decode_long_length (n0 - 183) rest;
      '(payload, rest') ← take_exact len rest1;
      Ok (PBytes payload, rest')
    else if (n0 <? 248)%N then
      '(payload, rest') ← take_exact (n0 - 192) rest;
      items ← consume_items fuel payload;
      Ok (PSeq items, rest')
    else
      '(len, rest1) ← decode_long_length (n0 - 247) rest;
      '(payload, rest') ← take_exact len rest1;
      items ← consume_items fuel payload;
      Ok (PSeq items, rest').
Proof. reflexivity. Qed.

Lemma consume_items_unfold (fuel : nat) (b0 : byte) (bs : bytes) :
  consume_items (S fuel) (b0 :: bs) =
    '(i, rest) ← consume_item fuel (b0 :: bs);
    items ← consume_items fuel rest;
    Ok (i :: items).
Proof. reflexivity. Qed.

(** Reading back a payload behind its length prefix. *)
Lemma consume_prefixed_str (fuel : nat) (bs p rest : bytes) :
  length_prefix (blen bs) 128 = Ok p →
  (∀ b, bs = [b] → (128 ≤ Byte.to_N b)%N) →
  consume_item (S fuel) ((p ++ bs) ++ rest) = Ok (PBytes bs, rest).
Proof.
  intros [[Hlen ->]|[Hlen ->]]%length_prefix_Ok Hsingle.
  - simpl app. rewrite consume_item_unfold. cbv zeta.
    rewrite to_N_byte_of_N by lia.
    destruct (N.ltb_spec (128 + blen bs) 128); [lia|].
    destruct (N.ltb_spec (128 + blen bs) 184); [|lia].
    replace (128 + blen bs - 128)%N with (blen bs) by lia.
    rewrite take_exact_app. simpl.
    destruct bs as [|b [|b' bs]]; try done.
    specialize (Hsingle b eq_refl).
    by destruct (N.ltb_spec (Byte.to_N b) 128); [lia|].
  - pose proof (long_length_size _ Hlen) as Hll.
    simpl app. rewrite consume_item_unfold. cbv zeta.
    rewrite to_N_byte_of_N by lia.
    set (ls := int_to_big_endian (blen bs)) in *.
    destruct (N.ltb_spec (128 + 55 + blen ls) 128); [lia|].
    destruct (N.ltb_spec (128 + 55 + blen ls) 184); [lia|].
    destruct (N.ltb_spec (128 + 55 + blen ls) 192); [|lia].
    replace (128 + 55 + blen ls - 183)%N with (blen ls) by lia.
    rewrite <-app_assoc. subst ls.
    rewrite decode_long_length_encoded by lia. simpl.
    by rewrite take_exact_app.
Qed.

Lemma consume_prefixed_seq (fuel : nat) (payload p rest : bytes)
    (l : list pyval) :
  length_prefix (blen payload) 192 = Ok p →
  consume_items fuel payload = Ok l →
  consume_item (S fuel) ((p ++ payload) ++ rest) = Ok (PSeq l, rest).
Proof.
  intros [[Hlen ->]|[Hlen ->]]%length_prefix_Ok Hitems.
  - simpl app. rewrite consume_item_unfold. cbv zeta.
    rewrite to_N_byte_of_N by lia.
    destruct (N.ltb_spec (192 + blen payload) 128); [lia|].
    destruct (N.ltb_spec (192 + blen payload) 184); [lia|].
    destruct (N.ltb_spec (192 + blen payload) 192); [lia|].
    destruct (N.ltb_spec (192 + blen payload) 248); [|lia].
    replace (192 + blen payload - 192)%N with (blen payload) by lia.
    rewrite take_exact_app. simpl. by rewrite Hitems.
  - pose proof (long_length_size _ Hlen) as Hll.
    simpl app. rewrite consume_item_unfold. cbv zeta.
    rewrite to_N_byte_of_N by lia.
    set (ls := int_to_big_endian (blen payload)) in *.
    destruct (N.ltb_spec (192 + 55 + blen ls) 128); [lia|].
    destruct (N.ltb_spec (192 + 55 + blen ls) 184); [lia|].
    destruct (N.ltb_spec (192 + 55 + blen ls) 192); [lia|].
    destruct (N.ltb_spec (192 + 55 + blen ls) 248); [lia|].
    replace (192 + 55 + blen ls - 247)%N with (blen ls) by lia.
    rewrite <-app_assoc. subst ls.
    rewrite decode_long_length_encoded by lia. simpl.
    rewrite take_exact_app. simpl. by rewrite Hitems.
Qed.

Lemma length_prefix_nonempty (len offset : N) (p : bytes) :
  length_prefix len offset = Ok p → (1 ≤ length p)%nat.
Proof. intros [[_ ->]|[_ ->]]%length_prefix_Ok; simpl; lia. Qed.

Lemma encode_raw_nonempty (v : pyval) (enc : bytes) :
  encode_raw v = Ok enc → (1 ≤ length enc)%nat.
Proof.
  destruct v as [| |bs|l|]; simpl; try done.
  - unfold encode_str. destruct bs as [|b [|b' bs]].
    + intros (p & Hp%length_prefix_nonempty & [= <-])%bind_Ok.
      rewrite length_app. lia.
    + destruct (Byte.to_N b <? 128)%N; [intros [= <-]; simpl; lia|].
      intros (p & Hp%length_prefix_nonempty & [= <-])%bind_Ok.
      rewrite length_app. lia.
    + intros (p & Hp%length_prefix_nonempty & [= <-])%bind_Ok.
      rewrite length_app. lia.
  - intros (encs & _ & (p & Hp%length_prefix_nonempty & [= <-])%bind_Ok)%bind_Ok.
    rewrite length_app. lia.
Qed.

Lemma consume_items_encoded (l : list pyval) (encs : list bytes) :
  Forall (λ v, ∀ enc, encode_raw v = Ok enc → ∀ fuel rest,
            (2 * length enc ≤ fuel)%nat →
            consume_item fuel (enc ++ rest) = Ok (v, rest)) l →
  mapM encode_raw l = Ok encs →
  ∀ fuel, (2 * length (concat encs) + 1 ≤ fuel)%nat →
  consume_items fuel (concat encs) = Ok l.
Proof.
  intros IH. revert encs.
  induction IH as [|v l Hv _ IHl]; intros encs Hencs fuel Hfuel.
  - simpl in Hencs. injection Hencs as <-.
    destruct fuel; [lia|done].
  - simpl in Hencs.
    apply bind_Ok in Hencs as (enc & Henc & Hencs).
    apply bind_Ok in Hencs as (encs' & Hencs' & [= <-]).
    simpl concat in *. rewrite length_app in Hfuel.
    pose proof (encode_raw_nonempty _ _ Henc) as Hne.
    destruct fuel as [|fuel]; [lia|].
    destruct enc as [|b0 enc]; [simpl in Hne; lia|].
    change ((b0 :: enc) ++ concat encs') with (b0 :: (enc ++ concat encs')).
    rewrite consume_items_unfold.
    change (b0 :: (enc ++ concat encs')) with ((b0 :: enc) ++ concat encs').
    simpl length in Hfuel.
    rewrite (Hv _ Henc) by (simpl length; lia). simpl.
    by rewrite (IHl _ Hencs') by lia.
Qed.

Lemma consume_item_encoded (v : pyval) (enc : bytes) :
  encode_raw v = Ok enc →
  ∀ fuel rest, (2 * length enc ≤ fuel)%nat →
  consume_item fuel (enc ++ rest) = Ok (v, rest).
Proof.
  revert enc. induction v as [n|s|bs|l IH|l IH] using pyval_nested_ind;
    intros enc Henc fuel rest Hfuel; simpl in Henc; try done.
  - pose proof (encode_raw_nonempty (PBytes bs) _ Henc) as Hne.
    destruct fuel as [|fuel]; [lia|].
    unfold encode_str in Henc. destruct bs as [|b [|b' bs]].
    + apply bind_Ok in Henc as (p & Hp & [= <-]).
      by apply consume_prefixed_str.
    + destruct (N.ltb_spec (Byte.to_N b) 128) as [Hb|Hb].
      * injection Henc as <-. simpl app. rewrite consume_item_unfold.
        cbv zeta. by destruct (N.ltb_spec (Byte.to_N b) 128); [|lia].
      * apply bind_Ok in Henc as (p & Hp & [= <-]).
        apply consume_prefixed_str; [done|]. by intros ? [= <-].
    + apply bind_Ok in Henc as (p & Hp & [= <-]).
      by apply consume_prefixed_str.
  - apply bind_Ok in Henc as (encs & Hencs & Henc).
    apply bind_Ok in Henc as (p & Hp & [= <-]).
    pose proof (length_prefix_nonempty _ _ _ Hp) as Hne.
    rewrite length_app in Hfuel.
    destruct fuel as [|fuel]; [lia|].
    apply consume_prefixed_seq; [done|].
    apply consume_items_encoded; [done|done|lia].
Qed.

(** [rlp.decode] undoes [rlp.encode] on serial values. *)
Lemma decode_raw_encode_raw (v : pyval) (enc : bytes) :
  encode_raw v = Ok enc → decode_raw enc = Ok v.
Proof.
  intros Henc. unfold decode_raw.
  rewrite <-(app_nil_r enc) at 2.
  by rewrite (consume_item_encoded _ _ Henc).
Qed.

(** ** When encoding succeeds *)

Lemma length_prefix_fits (len offset : N) :
  (len < 2 ^ 64)%N →
  ∃ p, length_prefix len offset = Ok p ∧ (blen p ≤ 9)%N.
Proof.
  intros Hlen. unfold length_prefix.
  destruct (N.ltb_spec len 56).
  { eexists; split; [done|]. unfold blen; simpl; lia. }
  destruct (N.ltb_spec len (2 ^ 64)); [|lia].
  eexists; split; [done|].
  pose proof (long_length_size len ltac:(lia)).
  unfold blen in *. simpl length. lia.
Qed.

Lemma encode_str_fits (bs : bytes) :
  (blen bs < 2 ^ 64)%N →
  ∃ enc, encode_str bs = Ok enc ∧ (blen enc ≤ 9 + blen bs)%N.
Proof.
  intros Hlen.
  destruct (length_prefix_fits (blen bs) 128 Hlen) as (p & Hp & Hsize).
  assert (∃ enc, (p ← length_prefix (blen bs) 128; Ok (p ++ bs)) = Ok enc
                 ∧ (blen enc ≤ 9 + blen bs)%N) as Hgen.
  { rewrite Hp. simpl. eexists; split; [done|]. rewrite blen_app. lia. }
  unfold encode_str. destruct bs as [|b [|b' bs]]; try done.
  destruct (Byte.to_N b <? 128)%N; [|done].
  eexists; split; [done|]. unfold blen; simpl; lia.
Qed.

Lemma wire_bounds_cons (x : pyval) (l : list pyval) :
  wire_bounds (x :: l) = (wire_bound x + wire_bounds l)%N.
Proof. reflexivity. Qed.

Lemma encode_all_fits (l : list pyval) :
  Forall (λ v, serializable v = true → (wire_bound v < 2 ^ 64)%N →
               ∃ enc, encode_raw v = Ok enc ∧ (blen enc ≤ wire_bound v)%N) l →
  forallb serializable l = true → (wire_bounds l < 2 ^ 64)%N →
  ∃ encs, mapM encode_raw l = Ok encs
          ∧ (blen (concat encs) ≤ wire_bounds l)%N.
Proof.
  induction 1 as [|x l Hx _ IHl]; intros Hser Hsize.
  - exists []. split; [done|]. unfold blen; simpl; lia.
  - simpl in Hser. apply andb_true_iff in Hser as [Hserx Hserl].
    rewrite wire_bounds_cons in *.
    destruct (Hx Hserx) as (enc & Henc & Hle); [lia|].
    destruct (IHl Hserl) as (encs & Hencs & Hles); [lia|].
    exists (enc :: encs). simpl. rewrite Henc. simpl. rewrite Hencs. simpl.
    split; [done|]. rewrite blen_app. lia.
Qed.

Lemma encode_raw_fits (v : pyval) :
  serializable v = true → (wire_bound v < 2 ^ 64)%N →
  ∃ enc, encode_raw v = Ok enc ∧ (blen enc ≤ wire_bound v)%N.
Proof.
  induction v as [n|s|bs|l IH|l IH] using pyval_nested_ind;
    intros Hser Hsize; simpl in Hser; try done.
  - simpl in *. apply encode_str_fits. lia.
  - simpl in Hsize. fold (wire_bounds l) in Hsize.
    destruct (encode_all_fits l IH Hser) as (encs & Hencs & Hpayload); [lia|].
    destruct (length_prefix_fits (blen (concat encs)) 192)
      as (p & Hp & Hpsize); [lia|].
    simpl. rewrite Hencs. simpl. rewrite Hp. simpl.
    eexists; split; [done|]. rewrite blen_app.
    fold (wire_bounds l). lia.
Qed.

(** Encoding a serial value that respects the length limit and decoding
    the bytes gives the value back. *)
Lemma rlp_raw_roundtrip (v : pyval) :
  serializable v = true → (wire_bound v < 2 ^ 64)%N →
  ∃ enc, encode_raw v = Ok enc ∧ decode_raw enc = Ok v.
Proof.
  intros Hser Hsize.
  destruct (encode_raw_fits v Hser Hsize) as (enc & Henc & _).
  exists enc. split; [done|]. by apply decode_raw_encode_raw.
Qed.

(** ** Sedes and their domains *)

Lemma int_to_big_endian_size (m : N) :
  (blen (int_to_big_endian m) ≤ N.size m)%N.
Proof.
  pose proof (int_to_big_endian_length m (N.to_nat (N.size m))) as H.
  unfold blen. rewrite N2Nat.id in H.
  assert (m < 256 ^ N.size m)%N; [|lia].
  eapply N.lt_le_trans; [apply N.size_gt|].
  apply N.pow_le_mono_l. lia.
Qed.

Lemma big_endian_int_ok : codec_ok big_endian_int dom_uint.
Proof.
  intros [n| | | |] Hv; simpl in Hv; try done.
  apply Z.leb_le in Hv. simpl.
  destruct (Z.ltb_spec n 0); [lia|].
  eexists; split; [done|]. split; [done|]. split.
  { simpl. pose proof (int_to_big_endian_size (Z.to_N n)). lia. }
  destruct (N.eq_dec (Z.to_N n) 0%N) as [Hz|Hnz].
  - rewrite Hz. simpl. f_equal. f_equal. lia.
  - destruct (int_to_big_endian_head _ Hnz) as (b & ds & Hds & Hb).
    pose proof (big_endian_to_int_to_big_endian (Z.to_N n)) as Hval.
    rewrite Hds in *.
    destruct (N.eqb_spec (Byte.to_N b) 0%N); [done|].
    rewrite Hval. f_equal. f_equal. lia.
Qed.

Lemma binary_ok : codec_ok binary dom_bytes.
Proof.
  intros [| |b| |] Hv; simpl in Hv; try done.
  exists (PBytes b). simpl. repeat split; try done; lia.
Qed.

Lemma raw_ok : codec_ok raw serializable.
Proof.
  intros v Hv. exists v. simpl. rewrite Hv. repeat split; try done; lia.
Qed.

Lemma zip_apply_cons (err : exn) (f : pyval → result pyval)
    (fs : list (pyval → result pyval)) (v : pyval) (vs : list pyval) :
  zip_apply err (f :: fs) (v :: vs)
  = (y ← f v; ys ← zip_apply err fs vs; Ok (y :: ys)).
Proof. reflexivity. Qed.

Lemma mapM_cons {A B} (f : A → result B) (x : A) (l : list A) :
  mapM f (x :: l) = (y ← f x; ys ← mapM f l; Ok (y :: ys)).
Proof. reflexivity. Qed.

Lemma bind_Ok_l {A B} (f : A → result B) (a : A) : Ok a ≫= f = f a.
Proof. reflexivity. Qed.

Lemma zip_apply_ok (ss : list sedes) (Ds : list (pyval → bool))
    (l : list pyval) :
  Forall2 codec_ok ss Ds → zip_all Ds l = true →
  ∃ ws, zip_apply SerializationError (serialize <$> ss) l = Ok ws
        ∧ forallb serializable ws = true
        ∧ (wire_bounds ws ≤ wire_bounds l)%N
        ∧ zip_apply DeserializationError (deserialize <$> ss) ws = Ok l.
Proof.
  intros Hss. revert l.
  induction Hss as [|s D ss Ds Hs _ IH]; intros [|x l] Hl; simpl in Hl;
    try done.
  - exists []. by repeat split.
  - apply andb_true_iff in Hl as [Hx Hl].
    destruct (Hs x Hx) as (w & Hw & Hserw & Hsize & Hback).
    destruct (IH l Hl) as (ws & Hws & Hserws & Hsizes & Hbacks).
    exists (w :: ws). rewrite !fmap_cons, !zip_apply_cons.
    rewrite Hw, Hback, !bind_Ok_l, Hws, Hbacks, !bind_Ok_l.
    simpl forallb. rewrite Hserw, Hserws.
    rewrite !wire_bounds_cons. repeat split; try done; lia.
Qed.

Lemma mapM_codec_ok (s : sedes) (D : pyval → bool) (l : list pyval) :
  codec_ok s D → forallb D l = true →
  ∃ ws, mapM (serialize s) l = Ok ws
        ∧ forallb serializable ws = true
        ∧ (wire_bounds ws ≤ wire_bounds l)%N
        ∧ mapM (deserialize s) ws = Ok l.
Proof.
  intros Hs. induction l as [|x l IH]; intros Hl; simpl in Hl.
  - exists []. by repeat split.
  - apply andb_true_iff in Hl as [Hx Hl].
    destruct (Hs x Hx) as (w & Hw & Hserw & Hsize & Hback).
    destruct (IH Hl) as (ws & Hws & Hserws & Hsizes & Hbacks).
    exists (w :: ws). rewrite !mapM_cons.
    rewrite Hw, Hback, !bind_Ok_l, Hws, Hbacks, !bind_Ok_l.
    simpl forallb. rewrite Hserw, Hserws.
    rewrite !wire_bounds_cons. repeat split; try done; lia.
Qed.

Lemma List_ok (ss : list sedes) (Ds : list (pyval → bool)) :
  Forall2 codec_ok ss Ds → codec_ok (List ss) (dom_tuple Ds).
Proof.
  intros Hss [| | |l|] Hv; simpl in Hv; try done.
  destruct (zip_apply_ok ss Ds l Hss Hv) as (ws & Hws & Hser & Hsize & Hback).
  exists (PSeq ws). simpl. rewrite Hws, Hback. simpl.
  fold (wire_bounds ws) (wire_bounds l). repeat split; try done; lia.
Qed.

Lemma Serializable_ok (fields : list (string * sedes))
    (Ds : list (pyval → bool)) :
  Forall2 codec_ok fields.*2 Ds → codec_ok (Serializable fields) (dom_obj Ds).
Proof.
  intros Hss [| | | |l] Hv; simpl in Hv; try done.
  destruct (zip_apply_ok _ Ds l Hss Hv) as (ws & Hws & Hser & Hsize & Hback).
  exists (PSeq ws). simpl. rewrite Hws, Hback. simpl.
  fold (wire_bounds ws) (wire_bounds l). repeat split; try done; lia.
Qed.

Lemma CountableList_ok (s : sedes) (D : pyval → bool) :
  codec_ok s D → codec_ok (CountableList s) (dom_seq D).
Proof.
  intros Hs [| | |l|] Hv; simpl in Hv; try done.
  destruct (mapM_codec_ok s D l Hs Hv) as (ws & Hws & Hser & Hsize & Hback).
  exists (PSeq ws). simpl. rewrite Hws, Hback. simpl.
  fold (wire_bounds ws) (wire_bounds l). repeat split; try done; lia.
Qed.

(** [rlp.decode] undoes [rlp.encode] on the domain of a sedes. *)
Lemma rlp_roundtrip (s : sedes) (D : pyval → bool) (v : pyval) :
  codec_ok s D → D v = true → (wire_bound v < 2 ^ 64)%N →
  ∃ enc, rlp_encode s v = Ok enc ∧ rlp_decode s enc = Ok v.
Proof.
  intros Hs Hv Hsize.
  destruct (Hs v Hv) as (w & Hw & Hser & Hle & Hback).
  destruct (rlp_raw_roundtrip w Hser) as (enc & Henc & Hdec); [lia|].
  exists enc. unfold rlp_encode, rlp_decode.
  rewrite Hw. simpl. rewrite Henc, Hdec. by simpl.
Qed.

(** * The claims *)

(** ** Head summary *)

Lemma zip_apply_length (err : exn) (fs : list (pyval → result pyval))
    (vs ys : list pyval) :
  zip_apply err fs vs = Ok ys → length ys = length fs.
Proof.
  revert vs ys. induction fs as [|f fs IH]; intros [|v vs] ys; try done.
  - by intros [= <-].
  - rewrite zip_apply_cons.
    intros (y & _ & (ys' & Hys' & [= <-])%bind_Ok)%bind_Ok.
    simpl. f_equal. by eapply IH.
Qed.

(** A decoded Announce message has its five fields. *)
Lemma Announce_decoded_fields (rlp_data : bytes)
    (decoded : gmap string pyval) :
  Command_decode_payload Announce.structure rlp_data = Ok decoded →
  ∃ hash num td depth params,
    decoded = list_to_map [ ("head_hash", hash); ("head_number", num);
                            ("head_td", td); ("reorg_depth", depth);
                            ("params", params) ].
Proof.
  unfold Command_decode_payload, rlp_decode.
  intros (data & (serial & _ & Hdes)%bind_Ok & Hdict)%bind_Ok.
  destruct serial as [| | |l|]; try done.
  apply fmap_Ok in Hdes as (values & Hvalues%zip_apply_length & ->).
  injection Hdict as <-.
  destruct values as [|hash [|num [|td [|depth [|params [|]]]]]]; try done.
  by exists hash, num, td, depth, params.
Qed.

(** C5. Head-summary extraction only reads the message and has no error
    of its own.  On a decoded Status message that has the keys [headNum],
    [headHash] and [headTd] it returns these three values with
    [reorg_depth = 0]; on every decoded Announce message it returns, with
    [head_number], [head_hash], [head_td] and [reorg_depth] as they are in
    the message. *)
Theorem as_head_info_spec (status announce : gmap string pyval)
    (num hash td : pyval) (rlp_data : bytes) :
  status !! "headNum" = Some num →
  status !! "headHash" = Some hash →
  status !! "headTd" = Some td →
  Command_decode_payload Announce.structure rlp_data = Ok announce →
  Status.as_head_info status
    = Ok {| block_number := num; block_hash := hash;
            total_difficulty := td; reorg_depth := PInt 0 |}
  ∧ ∃ a_num a_hash a_td a_depth,
      announce !! "head_number" = Some a_num
      ∧ announce !! "head_hash" = Some a_hash
      ∧ announce !! "head_td" = Some a_td
      ∧ announce !! "reorg_depth" = Some a_depth
      ∧ Announce.as_head_info announce
        = Ok {| block_number := a_num; block_hash := a_hash;
                total_difficulty := a_td; reorg_depth := a_depth |}.
Proof.
  intros Hn Hh Htd Hann. split.
  - unfold Status.as_head_info, getitem. by rewrite Hn, Hh, Htd.
  - apply Announce_decoded_fields in Hann
      as (a_hash & a_num & a_td & a_depth & params & ->).
    by exists a_num, a_hash, a_td, a_depth.
Qed.

Lemma as_head_info_spec_witness :
  Status.as_head_info example_status
    = Ok {| block_number := PInt 150; block_hash := PBytes [x01; x02];
            total_difficulty := PInt 5000; reorg_depth := PInt 0 |}
  ∧ ∃ a_num a_hash a_td a_depth,
      example_announce !! "head_number" = Some a_num
      ∧ example_announce !! "head_hash" = Some a_hash
      ∧ example_announce !! "head_td" = Some a_td
      ∧ example_announce !! "reorg_depth" = Some a_depth
      ∧ Announce.as_head_info example_announce
        = Ok {| block_number := a_num; block_hash := a_hash;
                total_difficulty := a_td; reorg_depth := a_depth |}.
Proof.
  apply (as_head_info_spec example_status example_announce
           (PInt 150) (PBytes [x01; x02]) (PInt 5000) payload_announce);
    reflexivity.
Defined.

(** ** Handshake *)

(** C1, as stated, fails: the claim has the two failures carry the reasons
    NetworkMismatch and GenesisMismatch.  With local network id 1 and
    genesis hash [aa], a message with networkId 2 and a message with
    networkId 1 and genesis hash [bb] raise one and the same exception,
    [HandshakeFailure(DisconnectReason.other)]. *)
Lemma process_handshake_reason_is_other :
  (LESProtocol.process_handshake wrong_network example_protocol).1
    = Raise (HandshakeFailure other)
  ∧ (LESProtocol.process_handshake wrong_genesis example_protocol).1
    = Raise (HandshakeFailure other)
  ∧ (LESProtocol.process_handshake wrong_network example_protocol).1
    = (LESProtocol.process_handshake wrong_genesis example_protocol).1.
Proof. by vm_compute. Qed.

(** C1, amended. [process_handshake] checks the network id first and the
    genesis hash second.  A message whose networkId differs from the local
    network id raises [HandshakeFailure(DisconnectReason.other)] after the
    network mismatch was logged; one whose networkId matches and whose
    genesisHash differs from the local genesis hash raises the same
    [HandshakeFailure(DisconnectReason.other)] after the genesis mismatch
    was logged; one where both match returns, and leaves the protocol
    object as it was.  Nothing is sent in any of the three cases. *)
Theorem process_handshake_spec (self : Protocol)
    (decoded_msg : gmap string pyval) (theirs : pyval) (genesis : bytes) :
  decoded_msg !! "networkId" = Some theirs →
  (theirs ≠ PInt (network_id (peer self)) →
     LESProtocol.process_handshake decoded_msg self
     = (Raise (HandshakeFailure other),
        with_logged self
          (NetworkDoesNotMatch theirs (network_id (peer self)))))
  ∧ (theirs = PInt (network_id (peer self)) →
     decoded_msg !! "genesisHash" = Some (PBytes genesis) →
     genesis ≠ genesis_hash (peer self) →
     LESProtocol.process_handshake decoded_msg self
     = (Raise (HandshakeFailure other),
        with_logged self
          (GenesisDoesNotMatch genesis (genesis_hash (peer self)))))
  ∧ (theirs = PInt (network_id (peer self)) →
     decoded_msg !! "genesisHash" = Some (PBytes genesis) →
     genesis = genesis_hash (peer self) →
     LESProtocol.process_handshake decoded_msg self = (Ok tt, self)).
Proof.
  intros Hnet.
  unfold LESProtocol.process_handshake, mbind, action_bind, self_peer, lift,
    getitem.
  rewrite Hnet. split; [|split].
  - intros Hne. apply py_ne_true in Hne. by rewrite Hne.
  - intros Heq Hgen Hne. apply py_ne_false in Heq. rewrite Heq, Hgen.
    assert (PBytes genesis ≠ PBytes (genesis_hash (peer self))) as Hne'
      by congruence.
    apply py_ne_true in Hne'. by rewrite Hne'.
  - intros Heq Hgen ->. apply py_ne_false in Heq. rewrite Heq, Hgen.
    by rewrite (proj2 (py_ne_false _ _) eq_refl).
Qed.

Lemma process_handshake_spec_witness :
  LESProtocol.process_handshake wrong_network example_protocol
  = (Raise (HandshakeFailure other),
     with_logged example_protocol (NetworkDoesNotMatch (PInt 2) 1))
  ∧ LESProtocol.process_handshake wrong_genesis example_protocol
    = (Raise (HandshakeFailure other),
       with_logged example_protocol (GenesisDoesNotMatch [xbb] [xaa]))
  ∧ LESProtocol.process_handshake example_status example_protocol
    = (Ok tt, example_protocol).
Proof.
  split; [|split].
  - apply (process_handshake_spec example_protocol wrong_network (PInt 2) []);
      [reflexivity|discriminate].
  - apply (process_handshake_spec example_protocol wrong_genesis (PInt 1)
             [xbb]); [reflexivity|reflexivity|reflexivity|discriminate].
  - apply (process_handshake_spec example_protocol example_status (PInt 1)
             [xaa]); reflexivity.
Defined.

(** ** Status: the order of the items *)

Global Instance key_le_trans : Transitive key_le.
Proof. intros a b c. unfold key_le. apply transitivity. Qed.

Global Instance key_le_total : Total key_le.
Proof. intros a b. unfold key_le. apply total, _. Qed.

Lemma sorted_items_Sorted (data : pydict) :
  Sorted key_le (Status.sorted_items data).
Proof. apply (Sorted_merge_sort key_le). Qed.

Lemma sorted_items_Permutation (data : pydict) :
  Status.sorted_items data ≡ₚ data.
Proof. apply (merge_sort_Permutation key_le). Qed.

Lemma NoDup_fst_unique {V} (l : list (string * V)) (k : string) (v1 v2 : V) :
  NoDup l.*1 → (k, v1) ∈ l → (k, v2) ∈ l → v1 = v2.
Proof.
  intros Hnd H1 H2.
  apply (elem_of_list_to_map (M:=gmap string)) in H1; [|done].
  apply (elem_of_list_to_map (M:=gmap string)) in H2; [|done].
  congruence.
Qed.

Lemma sorted_items_unique (data1 data2 : pydict) :
  NoDup data1.*1 → data1 ≡ₚ data2 →
  Status.sorted_items data1 = Status.sorted_items data2.
Proof.
  intros Hnd Hperm.
  apply (Sorted_unique_strong key_le); try apply sorted_items_Sorted.
  - intros [k1 v1] [k2 v2] H1 H2 Hle1 Hle2.
    rewrite sorted_items_Permutation in H1.
    rewrite sorted_items_Permutation, <-Hperm in H2.
    unfold key_le in *. simpl in *.
    assert (k1 = k2) as -> by (by apply (anti_symm String.le)).
    f_equal. by eapply NoDup_fst_unique.
  - by rewrite !sorted_items_Permutation.
Qed.

(** C4. Two dictionaries that are equal as mappings, whatever the order in
    which their items were inserted, are encoded to the same bytes (or fail
    with the same exception): the items are put in the order of their keys
    before anything is serialised. *)
Theorem encode_payload_canonical (data1 data2 : pydict) :
  NoDup data1.*1 → NoDup data2.*1 →
  (list_to_map data1 : gmap string pyval) = list_to_map data2 →
  Sorted key_le (Status.sorted_items data1)
  ∧ Status.sorted_items data1 = Status.sorted_items data2
  ∧ Status.encode_payload data1 = Status.encode_payload data2.
Proof.
  intros Hnd1 Hnd2 Heq.
  assert (data1 ≡ₚ data2) as Hperm by (by apply (list_to_map_inj (M:=gmap string))).
  split; [apply sorted_items_Sorted|].
  assert (Status.sorted_items data1 = Status.sorted_items data2) as Hs
    by (by apply sorted_items_unique).
  split; [done|]. unfold Status.encode_payload. by rewrite Hs.
Qed.

Lemma encode_payload_canonical_witness :
  Sorted key_le (Status.sorted_items status_out_of_order)
  ∧ Status.sorted_items status_out_of_order
    = Status.sorted_items status_in_order
  ∧ Status.encode_payload status_out_of_order
    = Status.encode_payload status_in_order.
Proof.
  refine (encode_payload_canonical status_out_of_order status_in_order _ _ _).
  - apply (bool_decide_unpack _). by vm_compute.
  - apply (bool_decide_unpack _). by vm_compute.
  - apply list_to_map_proper.
    + apply (bool_decide_unpack _). by vm_compute.
    + exact (Permutation_cons_append
               [("headNum", PInt 100); ("networkId", PInt 1)]
               ("protocolVersion", PInt 1)).
Defined.

(** ** Status: what cannot be encoded *)

Lemma mapM_Raise_elem {A B} (f : A → result B) (l : list A) (x : A) (e : exn) :
  x ∈ l → f x = Raise e → ∃ e', mapM f l = Raise e'.
Proof.
  intros Hx Hfx. induction l as [|y l IH]; [by inversion Hx|].
  rewrite mapM_cons. destruct (f y) as [b|e'] eqn:Hfy; [|by exists e'].
  apply elem_of_cons in Hx as [->|Hx]; [congruence|].
  destruct (IH Hx) as [e' ->]. by exists e'.
Qed.

Lemma mapM_first_Raise {A B} (f : A → result B) (l1 l2 : list A) (x : A)
    (e : exn) :
  Forall (λ y, is_Ok (f y)) l1 → f x = Raise e →
  mapM f (l1 ++ x :: l2) = Raise e.
Proof.
  intros Hl1 Hfx. induction Hl1 as [|y l1 Hy _ IH]; simpl app.
  - rewrite mapM_cons. by rewrite Hfx.
  - rewrite mapM_cons. destruct (f y); [|done]. by rewrite bind_Ok_l, IH.
Qed.

Lemma encode_payload_Raise_elem (data : pydict) (kv : string * pyval)
    (e : exn) :
  kv ∈ data → Status.encode_item kv = Raise e →
  ∃ e', Status.encode_payload data = Raise e'.
Proof.
  intros Hin Hkv. rewrite <-sorted_items_Permutation in Hin.
  destruct (mapM_Raise_elem _ _ _ _ Hin Hkv) as [e' He'].
  exists e'. unfold Status.encode_payload. by rewrite He'.
Qed.

Lemma encode_payload_first_Raise (data l1 l2 : pydict) (kv : string * pyval)
    (e : exn) :
  Status.sorted_items data = l1 ++ kv :: l2 →
  Forall (λ kv', is_Ok (Status.encode_item kv')) l1 →
  Status.encode_item kv = Raise e →
  Status.encode_payload data = Raise e.
Proof.
  intros Hsorted Hl1 Hkv. unfold Status.encode_payload.
  by rewrite Hsorted, (mapM_first_Raise _ _ _ _ _ Hl1 Hkv).
Qed.

(** When encoding raises, nothing is handed to the transport. *)
Lemma send_command_Raise (cmd : Command) (data : pydict) (e : exn)
    (self : Protocol) :
  command_encode_payload cmd data = Raise e →
  LESProtocol.send_command cmd data self = (Raise e, self).
Proof.
  intros He. unfold LESProtocol.send_command, mbind, action_bind,
    self_cmd_id_offset, lift, Command_encode.
  by rewrite He.
Qed.

Lemma send_command_Ok (cmd : Command) (data : pydict) (payload : bytes)
    (self : Protocol) :
  command_encode_payload cmd data = Ok payload →
  LESProtocol.send_command cmd data self
  = (Ok tt, with_sent self (cmd_id_offset self + command_id cmd, payload)).
Proof.
  intros He. unfold LESProtocol.send_command, mbind, action_bind,
    self_cmd_id_offset, lift, Command_encode.
  by rewrite He.
Qed.

(** C9. The keys [serveHeaders] and [txRelay] are in the table of known
    keys with no sedes, so a dictionary that has one of them cannot be
    encoded: [encode_payload] raises, with [AttributeError] when the items
    sorted before the flag serialise.  Decoding accepts the same key and
    yields its raw value. *)
Theorem encode_payload_presence_flag (data l1 l2 : pydict) (key : string)
    (value : pyval) :
  key = "serveHeaders" ∨ key = "txRelay" →
  (key, value) ∈ data →
  assoc key Status.items_sedes = Some None
  ∧ (∃ e, Status.encode_payload data = Raise e)
  ∧ (Status.sorted_items data = l1 ++ (key, value) :: l2 →
     Forall (λ kv, is_Ok (Status.encode_item kv)) l1 →
     Status.encode_payload data = Raise AttributeError)
  ∧ Status.decode_items [PSeq [PBytes (str_to_bytes key); value]]
    = Ok [(key, value)].
Proof.
  intros Hkey Hin.
  assert (assoc key Status.items_sedes = Some None) as Hnone
    by (by destruct Hkey as [-> | ->]).
  assert (Status.encode_item (key, value) = Raise AttributeError) as Hitem
    by (unfold Status.encode_item; cbn [fst]; by rewrite Hnone).
  split; [done|]. split; [by eapply encode_payload_Raise_elem|]. split.
  - intros Hsorted Hl1. by eapply encode_payload_first_Raise.
  - by destruct Hkey as [-> | ->].
Qed.

Lemma encode_payload_presence_flag_witness :
  Status.encode_payload status_with_flag = Raise AttributeError.
Proof.
  apply (encode_payload_presence_flag status_with_flag
           [("networkId", PInt 1)] [] "txRelay" (PBytes [])).
  - by right.
  - apply list_elem_of_here.
  - reflexivity.
  - by repeat constructor.
Defined.

(** C7, as stated, fails: a dictionary with the unknown key [zzz] whose
    other item fails first does not raise the error of the unknown key,
    because the items are serialised in the order of their keys.  With a
    presence flag before it the exception is [AttributeError]; with an
    integer where a byte string is due it is [SerializationError]. *)
Lemma encode_payload_unknown_key_other_error :
  assoc "zzz" Status.items_sedes = None
  ∧ Status.encode_payload [("zzz", PBytes []); ("headHash", PInt 5)]
    = Raise SerializationError
  ∧ Status.encode_payload [("zzz", PBytes []); ("serveHeaders", PBytes [])]
    = Raise AttributeError.
Proof. by vm_compute. Qed.

(** C7, amended. A dictionary that has a key absent from the table of known
    keys cannot be encoded: [encode_payload] raises, and sending the
    message raises the same exception and leaves the protocol object as it
    was, so that nothing is handed to the transport.  The exception is
    [KeyError] for that key when the items sorted before it serialise. *)
Theorem encode_payload_unknown_key (data l1 l2 : pydict) (key : string)
    (value : pyval) (self : Protocol) :
  (key, value) ∈ data →
  assoc key Status.items_sedes = None →
  (∃ e, Status.encode_payload data = Raise e
        ∧ LESProtocol.send_command Status.command data self = (Raise e, self))
  ∧ (Status.sorted_items data = l1 ++ (key, value) :: l2 →
     Forall (λ kv, is_Ok (Status.encode_item kv)) l1 →
     Status.encode_payload data = Raise (KeyError key)
     ∧ LESProtocol.send_command Status.command data self
       = (Raise (KeyError key), self)).
Proof.
  intros Hin Hnone.
  assert (Status.encode_item (key, value) = Raise (KeyError key)) as Hitem
    by (unfold Status.encode_item; cbn [fst]; by rewrite Hnone).
  split.
  - destruct (encode_payload_Raise_elem _ _ _ Hin Hitem) as [e He].
    exists e. split; [done|]. by apply send_command_Raise.
  - intros Hsorted Hl1.
    assert (Status.encode_payload data = Raise (KeyError key)) as He
      by (by eapply encode_payload_first_Raise).
    split; [done|]. by apply send_command_Raise.
Qed.

Lemma encode_payload_unknown_key_witness :
  Status.encode_payload status_with_unknown_key = Raise (KeyError "zzz")
  ∧ LESProtocol.send_command Status.command status_with_unknown_key
      example_protocol
    = (Raise (KeyError "zzz"), example_protocol).
Proof.
  apply (encode_payload_unknown_key status_with_unknown_key
           [("networkId", PInt 1)] [] "zzz" (PBytes []) example_protocol).
  - apply list_elem_of_here.
  - reflexivity.
  - reflexivity.
  - by repeat constructor.
Defined.

(** ** Status: decoding *)

Lemma decode_items_cons (kv : bytes * pyval) (rest : list pyval) :
  Status.decode_items (wire_pair kv :: rest) =
    key ← decode_ascii kv.1;
    match decode_value key kv.2 with
    | None => Status.decode_items rest
    | Some r =>
        y ← r; ys ← Status.decode_items rest; Ok ((key, y) :: ys)
    end.
Proof.
  destruct kv as [k v]. unfold wire_pair. cbn [fst snd].
  change (Status.decode_items (PSeq [PBytes k; v] :: rest)) with
    (key ← decode_ascii k;
     match assoc key Status.items_sedes with
     | None => Status.decode_items rest
     | Some item_sedes =>
         y ← match item_sedes with
             | Some s => deserialize s v
             | None => Ok v
             end;
         ys ← Status.decode_items rest;
         Ok ((key, y) :: ys)
     end).
  destruct (decode_ascii k) as [key|]; [|done]. rewrite !bind_Ok_l.
  unfold decode_value. by destruct (assoc key Status.items_sedes) as [[s|]|].
Qed.

Lemma decode_ascii_Ok (k : bytes) :
  forallb is_ascii_byte k = true → decode_ascii k = Ok (string_of_list_byte k).
Proof. intros H. unfold decode_ascii. by rewrite H. Qed.

Lemma decode_ascii_Raise (k : bytes) :
  forallb is_ascii_byte k = false → decode_ascii k = Raise UnicodeDecodeError.
Proof. intros H. unfold decode_ascii. by rewrite H. Qed.

(** The first pass always delivers a list of pairs. *)
Lemma decode_payload_list_pairs (rlp_data : bytes) (data : pyval) :
  Command_decode_payload_list Status.structure rlp_data = Ok data →
  ∃ pairs, data = PSeq (wire_pairs pairs).
Proof.
  unfold Command_decode_payload_list, rlp_decode.
  intros (serial & _ & Hdes)%bind_Ok.
  destruct serial as [| | |l|]; simpl in Hdes; try done.
  apply fmap_Ok in Hdes as (l' & Hl' & ->).
  apply mapM_Ok_Forall2 in Hl'.
  induction Hl' as [|x y l l' Hxy _ (pairs & Hpairs)].
  - by exists [].
  - injection Hpairs as ->.
    destruct x as [| | |[|a [|b [|c xs]]]|]; simpl in Hxy; try done.
    + destruct a; simpl in Hxy; try done.
    + destruct a as [| |k| |]; simpl in Hxy; try done.
      injection Hxy as <-. by exists ((k, b) :: pairs).
    + destruct a; simpl in Hxy; try done.
Qed.

Lemma decode_payload_pairs (rlp_data : bytes) (pairs : list (bytes * pyval)) :
  Command_decode_payload_list Status.structure rlp_data
    = Ok (PSeq (wire_pairs pairs)) →
  Status.decode_payload rlp_data
  = to_dict <$> Status.decode_items (wire_pairs pairs).
Proof. intros H. unfold Status.decode_payload. by rewrite H. Qed.

(** Pairs with unknown keys leave no trace, provided their keys are
    ASCII. *)
Lemma decode_items_filter_known (pairs : list (bytes * pyval)) :
  Forall has_ascii_key pairs →
  Status.decode_items (wire_pairs pairs)
  = Status.decode_items (wire_pairs (filter is_known pairs)).
Proof.
  induction 1 as [|kv pairs Hkv _ IH]; [done|].
  unfold wire_pairs. rewrite fmap_cons, decode_items_cons.
  rewrite filter_cons. rewrite (decode_ascii_Ok _ Hkv), bind_Ok_l.
  fold (wire_pairs pairs). rewrite IH.
  destruct (decide (is_known kv)) as [Hk|Hk].
  - rewrite fmap_cons, decode_items_cons.
    by rewrite (decode_ascii_Ok _ Hkv), bind_Ok_l.
  - unfold decode_value.
    destruct (assoc (string_of_list_byte kv.1) Status.items_sedes)
      as [item_sedes|] eqn:Hassoc; [|done].
    exfalso. apply Hk. unfold is_known. rewrite Hassoc.
    apply bool_decide_pack. eauto.
Qed.

Lemma decode_items_ok (pairs : list (bytes * pyval)) :
  Forall pair_ok pairs →
  Status.decode_items (wire_pairs pairs) = Ok (omap decoded_pair pairs).
Proof.
  induction 1 as [|kv pairs [Hascii Hval] _ IH]; [done|].
  unfold wire_pairs. rewrite fmap_cons, decode_items_cons.
  rewrite (decode_ascii_Ok _ Hascii), bind_Ok_l.
  fold (wire_pairs pairs). rewrite IH.
  change (omap decoded_pair (kv :: pairs)) with
    (match decoded_pair kv with
     | Some y => y :: omap decoded_pair pairs
     | None => omap decoded_pair pairs
     end).
  destruct (decode_value (string_of_list_byte kv.1) kv.2) as [r|] eqn:Hr.
  - specialize (Hval r eq_refl). destruct r as [y|]; [|done].
    rewrite !bind_Ok_l. unfold decoded_pair at 2. by rewrite Hr.
  - unfold decoded_pair at 2. by rewrite Hr.
Qed.

Lemma decode_items_non_ascii (before after : list (bytes * pyval))
    (kv : bytes * pyval) :
  forallb is_ascii_byte kv.1 = false →
  (∃ e, Status.decode_items (wire_pairs (before ++ kv :: after)) = Raise e)
  ∧ (Forall pair_ok before →
     Status.decode_items (wire_pairs (before ++ kv :: after))
     = Raise UnicodeDecodeError).
Proof.
  intros Hkv.
  assert (Status.decode_items (wire_pairs (kv :: after))
          = Raise UnicodeDecodeError) as Hhere.
  { unfold wire_pairs. rewrite fmap_cons, decode_items_cons.
    by rewrite (decode_ascii_Raise _ Hkv). }
  split.
  - induction before as [|kv' before [e IH]]; [by eexists|].
    simpl app. unfold wire_pairs in *. rewrite fmap_cons, decode_items_cons.
    destruct (decode_ascii kv'.1) as [key|e']; [|by eexists].
    rewrite bind_Ok_l, IH.
    destruct (decode_value key kv'.2) as [[y|e']|]; by eexists.
  - induction 1 as [|kv' before [Hascii Hval] _ IH]; [done|].
    simpl app. unfold wire_pairs in *. rewrite fmap_cons, decode_items_cons.
    rewrite (decode_ascii_Ok _ Hascii), bind_Ok_l, IH.
    destruct (decode_value _ kv'.2) as [r|] eqn:Hr; [|done].
    specialize (Hval r eq_refl). by destruct r.
Qed.

(** *** [to_dict]: the last pair of a key is the one that stays *)

Lemma foldl_insert_notin (pairs : list (string * pyval))
    (d : gmap string pyval) (key : string) :
  key ∉ pairs.*1 →
  foldl (λ d kv, <[kv.1 := kv.2]> d) d pairs !! key = d !! key.
Proof.
  revert d. induction pairs as [|[k v] pairs IH]; intros d Hnotin; [done|].
  rewrite fmap_cons, not_elem_of_cons in Hnotin. destruct Hnotin as [Hne Hnotin].
  simpl. rewrite IH by done. by rewrite lookup_insert_ne.
Qed.

Lemma to_dict_last (l1 l2 : list (string * pyval)) (key : string)
    (value : pyval) :
  key ∉ l2.*1 → to_dict (l1 ++ (key, value) :: l2) !! key = Some value.
Proof.
  intros Hnotin. unfold to_dict. rewrite foldl_app. simpl.
  rewrite foldl_insert_notin by done. apply lookup_insert_eq.
Qed.

Lemma to_dict_notin (l : list (string * pyval)) (key : string) :
  key ∉ l.*1 → to_dict l !! key = None.
Proof. intros Hnotin. unfold to_dict. by rewrite foldl_insert_notin. Qed.

Lemma decoded_pair_key (kv : bytes * pyval) (key : string) (y : pyval) :
  decoded_pair kv = Some (key, y) →
  key = string_of_list_byte kv.1
  ∧ decode_value key kv.2 = Some (Ok y).
Proof.
  unfold decoded_pair.
  destruct (decode_value _ kv.2) as [[y'|]|] eqn:Hr; try done.
  by intros [= <- <-].
Qed.

Lemma decoded_pairs_keys (pairs : list (bytes * pyval)) (key : string) :
  key ∈ (omap decoded_pair pairs).*1 →
  is_Some (assoc key Status.items_sedes)
  ∧ ∃ kv, kv ∈ pairs ∧ key = string_of_list_byte kv.1.
Proof.
  intros ([k y] & -> & Hin)%list_elem_of_fmap.
  apply list_elem_of_omap in Hin as (kv & Hkv & Hdec).
  apply decoded_pair_key in Hdec as [-> Hval]. cbn [fst]. split.
  - unfold decode_value in Hval.
    destruct (assoc _ Status.items_sedes); [eauto|done].
  - by exists kv.
Qed.

Lemma string_of_list_byte_inj (a b : bytes) :
  string_of_list_byte a = string_of_list_byte b → a = b.
Proof.
  intros H. apply (f_equal list_byte_of_string) in H.
  by rewrite !list_byte_of_string_of_list_byte in H.
Qed.

Lemma decoded_last (before after : list (bytes * pyval)) (key : bytes)
    (value : pyval) :
  Forall pair_ok (before ++ (key, value) :: after) →
  key ∉ after.*1 →
  is_known (key, value) →
  ∃ decoded,
    decode_value (string_of_list_byte key) value = Some (Ok decoded)
    ∧ to_dict (omap decoded_pair (before ++ (key, value) :: after))
        !! string_of_list_byte key = Some decoded.
Proof.
  intros Hok Hlast Hknown.
  apply Forall_app in Hok as [_ Hok]. apply Forall_cons in Hok as [[_ Hval] _].
  cbn [fst snd] in Hval.
  apply bool_decide_unpack in Hknown as [item_sedes Hassoc]. cbn [fst] in Hassoc.
  destruct (decode_value (string_of_list_byte key) value) as [r|] eqn:Hr.
  2:{ unfold decode_value in Hr. rewrite Hassoc in Hr. by destruct item_sedes. }
  specialize (Hval r eq_refl). destruct r as [decoded|]; [|done].
  exists decoded. split; [done|].
  rewrite omap_app.
  change (omap decoded_pair ((key, value) :: after)) with
    (match decoded_pair (key, value) with
     | Some y => y :: omap decoded_pair after
     | None => omap decoded_pair after
     end).
  unfold decoded_pair at 2. cbn [fst snd]. rewrite Hr.
  apply to_dict_last.
  intros (_ & kv & Hkv & Heq%string_of_list_byte_inj)%decoded_pairs_keys.
  apply Hlast. apply list_elem_of_fmap. by exists kv.
Qed.

(** C8. Every key of the outer list is converted from ASCII before it is
    looked up in the table of known keys.  A payload whose outer list has a
    pair with a key that is not ASCII is therefore never decoded:
    [decode_payload] raises, and it raises [UnicodeDecodeError] when the
    pairs before that one are decoded without error. *)
Theorem decode_payload_non_ascii_key (rlp_data : bytes)
    (before after : list (bytes * pyval)) (key : bytes) (value : pyval) :
  Command_decode_payload_list Status.structure rlp_data
    = Ok (PSeq (wire_pairs (before ++ (key, value) :: after))) →
  forallb is_ascii_byte key = false →
  (∃ e, Status.decode_payload rlp_data = Raise e)
  ∧ (Forall pair_ok before →
     Status.decode_payload rlp_data = Raise UnicodeDecodeError)
  ∧ (∀ rest, Status.decode_items (wire_pair (key, value) :: rest)
             = Raise UnicodeDecodeError).
Proof.
  intros Hphase1 Hkey. rewrite (decode_payload_pairs _ _ Hphase1).
  destruct (decode_items_non_ascii before after (key, value) Hkey)
    as [[e He] Hfirst].
  split; [|split].
  - exists e. by rewrite He.
  - intros Hbefore. by rewrite (Hfirst Hbefore).
  - intros rest. rewrite decode_items_cons. cbn [fst].
    by rewrite (decode_ascii_Raise _ Hkey).
Qed.

Lemma decode_payload_non_ascii_key_witness :
  Status.decode_payload payload_non_ascii_key = Raise UnicodeDecodeError.
Proof.
  apply (decode_payload_non_ascii_key payload_non_ascii_key
           [(str_to_bytes "networkId", PBytes [x01])] [] [xff] (PBytes [])).
  - by vm_compute.
  - reflexivity.
  - repeat constructor. intros r [= <-]. exact I.
Defined.

(** C10, as stated, fails: a payload in which a known key occurs more than
    once does not always decode.  The second pass deserialises every
    occurrence, so an earlier occurrence whose value the sedes of the key
    rejects ([headNum] with the two bytes [00 01], an integer with a
    leading zero) makes [decode_payload] raise [DeserializationError],
    although the last occurrence ([headNum] with the byte [09]) has a value
    the sedes accepts. *)
Lemma decode_payload_duplicate_key_raises :
  is_known (str_to_bytes "headNum", PBytes [x09]) = true
  ∧ Command_decode_payload_list Status.structure payload_duplicate_rejected
    = Ok (PSeq (wire_pairs [ (str_to_bytes "headNum", PBytes [x00; x01]);
                             (str_to_bytes "headNum", PBytes [x09]) ]))
  ∧ decode_value "headNum" (PBytes [x09]) = Some (Ok (PInt 9))
  ∧ decode_value "headNum" (PBytes [x00; x01])
    = Some (Raise DeserializationError)
  ∧ Status.decode_payload payload_duplicate_rejected
    = Raise DeserializationError.
Proof. by vm_compute. Qed.

(** C10, amended. Take a payload whose keys are all ASCII and whose known
    keys carry, at every occurrence, a value their sedes accept.  When a
    known key occurs more than once in its outer list, [decode_payload]
    returns a dictionary, and the value it has for that key is the decoded
    value of the last occurrence. *)
Theorem decode_payload_duplicate_key (rlp_data : bytes)
    (before after : list (bytes * pyval)) (key : bytes)
    (earlier value : pyval) :
  Command_decode_payload_list Status.structure rlp_data
    = Ok (PSeq (wire_pairs (before ++ (key, value) :: after))) →
  Forall pair_ok (before ++ (key, value) :: after) →
  is_known (key, value) →
  (key, earlier) ∈ before →
  key ∉ after.*1 →
  ∃ m decoded,
    Status.decode_payload rlp_data = Ok m
    ∧ decode_value (string_of_list_byte key) value = Some (Ok decoded)
    ∧ m !! string_of_list_byte key = Some decoded.
Proof.
  intros Hphase1 Hok Hknown _ Hlast.
  rewrite (decode_payload_pairs _ _ Hphase1), (decode_items_ok _ Hok).
  destruct (decoded_last before after key value Hok Hlast Hknown)
    as (decoded & Hdec & Hlookup).
  by exists (to_dict (omap decoded_pair (before ++ (key, value) :: after))),
    decoded.
Qed.

Lemma decode_payload_duplicate_key_witness :
  ∃ m decoded,
    Status.decode_payload payload_duplicate_key = Ok m
    ∧ decode_value "headNum" (PBytes [x09]) = Some (Ok decoded)
    ∧ m !! "headNum" = Some decoded.
Proof.
  apply (decode_payload_duplicate_key payload_duplicate_key
           [(str_to_bytes "headNum", PBytes [x07]);
            (str_to_bytes "future", PSeq [])]
           [] (str_to_bytes "headNum") (PBytes [x07]) (PBytes [x09])).
  - by vm_compute.
  - repeat constructor; vm_compute; try done; by intros r [= <-].
  - by vm_compute.
  - apply list_elem_of_here.
  - apply not_elem_of_nil.
Defined.

(** C3, as stated, fails: decoding a well-formed outer list that has keys
    absent from the table of known keys does not always succeed.  A known
    key whose value its sedes rejects ([networkId] with the two bytes
    [00 01], an integer with a leading zero) makes it raise
    [DeserializationError], and an unknown key that is not ASCII (the one
    byte [ff]) makes it raise [UnicodeDecodeError]. *)
Lemma decode_payload_unknown_key_raises :
  is_known (str_to_bytes "future", PBytes []) = false
  ∧ Command_decode_payload_list Status.structure payload_rejected_value
    = Ok (PSeq (wire_pairs [ (str_to_bytes "future", PBytes []);
                             (str_to_bytes "networkId", PBytes [x00; x01])
                           ]))
  ∧ Status.decode_payload payload_rejected_value = Raise DeserializationError
  ∧ is_known ([xff], PBytes []) = false
  ∧ Command_decode_payload_list Status.structure payload_key_ff
    = Ok (PSeq (wire_pairs [ ([xff], PBytes []) ]))
  ∧ Status.decode_payload payload_key_ff = Raise UnicodeDecodeError.
Proof. by vm_compute. Qed.

(** C3, amended. Take a well-formed outer list whose keys are all ASCII and
    whose known keys carry values their sedes accept.  Then decoding
    succeeds whatever keys absent from the table the list has: the result is
    the one obtained without the pairs of unknown keys, it has no entry for
    a key absent from the table, and for a known key it has the value that
    the sedes of the key gives for the last occurrence of the key. *)
Theorem decode_payload_unknown_keys (rlp_data : bytes)
    (pairs : list (bytes * pyval)) :
  Command_decode_payload_list Status.structure rlp_data
    = Ok (PSeq (wire_pairs pairs)) →
  Forall pair_ok pairs →
  ∃ m,
    Status.decode_payload rlp_data = Ok m
    ∧ to_dict <$> Status.decode_items (wire_pairs (filter is_known pairs))
      = Ok m
    ∧ (∀ key, assoc key Status.items_sedes = None → m !! key = None)
    ∧ (∀ before key value after,
         pairs = before ++ (key, value) :: after →
         key ∉ after.*1 →
         is_known (key, value) →
         ∃ decoded,
           decode_value (string_of_list_byte key) value = Some (Ok decoded)
           ∧ m !! string_of_list_byte key = Some decoded).
Proof.
  intros Hphase1 Hok.
  exists (to_dict (omap decoded_pair pairs)).
  assert (Forall has_ascii_key pairs) as Hascii
    by (eapply Forall_impl; [done|by intros ? []]).
  split; [|split; [|split]].
  - by rewrite (decode_payload_pairs _ _ Hphase1), (decode_items_ok _ Hok).
  - by rewrite <-(decode_items_filter_known _ Hascii), (decode_items_ok _ Hok).
  - intros key Hunknown. apply to_dict_notin.
    intros [[? Hsome] _]%decoded_pairs_keys. congruence.
  - intros before key value after -> Hlast Hknown.
    by apply decoded_last.
Qed.

Lemma decode_payload_unknown_keys_witness :
  ∃ m,
    Status.decode_payload payload_unknown_keys = Ok m
    ∧ m !! "future" = None
    ∧ m !! "headNum" = Some (PInt 9).
Proof.
  destruct (decode_payload_unknown_keys payload_unknown_keys
              [(str_to_bytes "future", PSeq [PBytes []]);
               (str_to_bytes "headNum", PBytes [x09]);
               (str_to_bytes "announceType", PBytes [x01])])
    as (m & Hm & _ & Hunknown & Hknown).
  - by vm_compute.
  - repeat constructor; vm_compute; try done; by intros r [= <-].
  - exists m. split; [done|]. split; [by apply Hunknown|].
    destruct (Hknown [(str_to_bytes "future", PSeq [PBytes []])]
                (str_to_bytes "headNum") (PBytes [x09])
                [(str_to_bytes "announceType", PBytes [x01])])
      as (decoded & Hdec & Hlookup).
    + reflexivity.
    + by apply (bool_decide_unpack _); vm_compute.
    + by vm_compute.
    + injection Hdec as <-. exact Hlookup.
Defined.

(** ** Fixed-shape commands *)

Lemma length_prefix_Raise (len offset : N) (e : exn) :
  length_prefix len offset = Raise e → e = length_error.
Proof.
  unfold length_prefix. destruct (len <? 56)%N; [done|].
  destruct (len <? 2 ^ 64)%N; [done|]. by intros [= <-].
Qed.

Lemma mapM_Raise_Forall {A B} (f : A → result B) (P : exn → Prop)
    (l : list A) (e : exn) :
  Forall (λ x, ∀ e, f x = Raise e → P e) l → mapM f l = Raise e → P e.
Proof.
  induction 1 as [|x l Hx _ IH]; [done|].
  rewrite mapM_cons. destruct (f x) as [y|e'] eqn:Hfx.
  - rewrite bind_Ok_l. destruct (mapM f l) as [ys|e'']; [done|].
    intros [= <-]. by apply IH.
  - intros [= <-]. by apply Hx.
Qed.

(** The encoder refuses a value that is not serial and a payload that is
    too long, and nothing else. *)
Lemma encode_raw_Raise (v : pyval) (e : exn) :
  encode_raw v = Raise e → e = EncodingError ∨ e = length_error.
Proof.
  revert e. induction v as [n|s|bs|l IH|l IH] using pyval_nested_ind;
    intros e; simpl; try (intros [= <-]; by left).
  - unfold encode_str. destruct bs as [|b [|b' bs]].
    + destruct (length_prefix _ _) eqn:Hp; [done|].
      intros [= <-]. right. by eapply length_prefix_Raise.
    + destruct (Byte.to_N b <? 128)%N; [done|].
      destruct (length_prefix _ _) eqn:Hp; [done|].
      intros [= <-]. right. by eapply length_prefix_Raise.
    + destruct (length_prefix _ _) eqn:Hp; [done|].
      intros [= <-]. right. by eapply length_prefix_Raise.
  - destruct (mapM encode_raw l) as [encs|e'] eqn:Hencs.
    + rewrite bind_Ok_l.
      destruct (length_prefix _ _) eqn:Hp; [done|].
      intros [= <-]. right. by eapply length_prefix_Raise.
    + intros [= <-].
      by apply (mapM_Raise_Forall encode_raw
                  (λ e, e = EncodingError ∨ e = length_error) l).
Qed.

(** A dictionary with the fields of [structure], each in the domain of its
    sedes, is encoded, and the payload decodes to the same fields. *)
Lemma Command_roundtrip (structure : list (string * sedes))
    (Ds : list (pyval → bool)) (data : pydict) (values : list pyval) :
  Forall2 codec_ok structure.*2 Ds →
  mapM (λ field, items_getitem data field.1) structure = Ok values →
  zip_all Ds values = true →
  (wire_bound (PSeq values) < 2 ^ 64)%N →
  ∃ payload,
    Command_encode_payload structure data = Ok payload
    ∧ Command_decode_payload structure payload
      = Ok (list_to_map (zip structure.*1 values)).
Proof.
  intros Hss Hvalues Hdom Hsize.
  destruct (rlp_roundtrip (List structure.*2) (dom_tuple Ds) (PSeq values))
    as (payload & Henc & Hdec); [by apply List_ok|done|done|].
  exists payload. unfold Command_encode_payload, Command_decode_payload.
  by rewrite Hvalues, bind_Ok_l, Henc, Hdec.
Qed.

(** ** Requests *)

Lemma headers_request_Raise (block_number max_headers request_id : Z)
    (reverse : bool) (e : exn) :
  Command_encode_payload GetBlockHeaders.structure
    (headers_request block_number max_headers request_id reverse) = Raise e →
  e = SerializationError ∨ e = EncodingError ∨ e = length_error.
Proof.
  unfold Command_encode_payload, headers_request.
  cbn -[encode_raw int_to_big_endian Z.ltb].
  repeat match goal with
         | |- context [if ?c then _ else _] => destruct c
         end;
    cbn -[encode_raw int_to_big_endian];
    try (intros [= <-]; by left).
  all: intros [?|?]%encode_raw_Raise; auto.
Qed.

Lemma serialize_hashes (block_hashes : list bytes) :
  serialize (CountableList binary) (PSeq (PBytes <$> block_hashes))
  = Ok (PSeq (PBytes <$> block_hashes)).
Proof.
  change (PSeq <$> mapM (serialize binary) (PBytes <$> block_hashes)
          = Ok (PSeq (PBytes <$> block_hashes))).
  assert (mapM (serialize binary) (PBytes <$> block_hashes)
          = Ok (PBytes <$> block_hashes)) as ->; [|done].
  induction block_hashes as [|h hs IH]; [done|].
  by rewrite fmap_cons, mapM_cons, IH.
Qed.

Lemma bodies_request_Raise (block_hashes : list bytes) (request_id : Z)
    (e : exn) :
  Command_encode_payload GetBlockBodies.structure
    (bodies_request block_hashes request_id) = Raise e →
  e = SerializationError ∨ e = EncodingError ∨ e = length_error.
Proof.
  unfold Command_encode_payload, bodies_request.
  cbn -[encode_raw int_to_big_endian Z.ltb CountableList].
  rewrite serialize_hashes.
  destruct (request_id <? 0)%Z;
    cbn -[encode_raw int_to_big_endian];
    try (intros [= <-]; by left).
  intros [?|?]%encode_raw_Raise; auto.
Qed.

Lemma too_many_headers_distinct (MAX_HEADERS_FETCH : Z) (e : exn) :
  e = SerializationError ∨ e = EncodingError ∨ e = length_error →
  e ≠ LESProtocol.too_many_headers MAX_HEADERS_FETCH.
Proof. by intros [->|[->| ->]]. Qed.

Lemma too_many_bodies_distinct (MAX_BODIES_FETCH : Z) (e : exn) :
  e = SerializationError ∨ e = EncodingError ∨ e = length_error →
  e ≠ LESProtocol.too_many_bodies MAX_BODIES_FETCH.
Proof. by intros [->|[->| ->]]. Qed.

Lemma forallb_dom_bytes (block_hashes : list bytes) :
  forallb dom_bytes (PBytes <$> block_hashes) = true.
Proof. by induction block_hashes. Qed.

Lemma send_get_block_headers_within (MAX_HEADERS_FETCH : Z)
    (block_number max_headers request_id : Z) (reverse : bool)
    (self : Protocol) :
  max_headers ≤ MAX_HEADERS_FETCH →
  LESProtocol.send_get_block_headers MAX_HEADERS_FETCH block_number
    max_headers request_id reverse self
  = LESProtocol.send_command GetBlockHeaders.command
      (headers_request block_number max_headers request_id reverse) self.
Proof.
  intros Hle. unfold LESProtocol.send_get_block_headers.
  by destruct (Z.gtb_spec max_headers MAX_HEADERS_FETCH); [lia|].
Qed.

Lemma send_get_block_bodies_within (MAX_BODIES_FETCH : Z)
    (block_hashes : list bytes) (request_id : Z) (self : Protocol) :
  Z.of_nat (length block_hashes) ≤ MAX_BODIES_FETCH →
  LESProtocol.send_get_block_bodies MAX_BODIES_FETCH block_hashes request_id
    self
  = LESProtocol.send_command GetBlockBodies.command
      (bodies_request block_hashes request_id) self.
Proof.
  intros Hle. unfold LESProtocol.send_get_block_bodies.
  by destruct (Z.gtb_spec (Z.of_nat (length block_hashes)) MAX_BODIES_FETCH);
    [lia|].
Qed.

(** C2. [send_get_block_headers] raises the error of the limit exactly when
    [max_headers] exceeds [MAX_HEADERS_FETCH], and then sends nothing.
    Otherwise, for unsigned arguments within the length limit of the codec,
    it sends one GetBlockHeaders message whose payload decodes to the given
    [request_id] and a query with the given block number, [max_headers],
    a skip of 0 (the method takes no skip) and the given direction, 1 for
    reverse and 0 for forward.
    [send_get_block_bodies] does the same with the number of block hashes
    and [MAX_BODIES_FETCH], and sends a GetBlockBodies message with the
    given [request_id] and block hashes. *)
Theorem request_limits (MAX_BODIES_FETCH MAX_HEADERS_FETCH : Z)
    (self : Protocol) (block_number max_headers request_id : Z)
    (reverse : bool) (block_hashes : list bytes) (bodies_id : Z) :
  ((LESProtocol.send_get_block_headers MAX_HEADERS_FETCH block_number
      max_headers request_id reverse self).1
     = Raise (LESProtocol.too_many_headers MAX_HEADERS_FETCH)
   ↔ max_headers > MAX_HEADERS_FETCH)
  ∧ (max_headers > MAX_HEADERS_FETCH →
     LESProtocol.send_get_block_headers MAX_HEADERS_FETCH block_number
       max_headers request_id reverse self
     = (Raise (LESProtocol.too_many_headers MAX_HEADERS_FETCH), self))
  ∧ (max_headers ≤ MAX_HEADERS_FETCH →
     0 ≤ block_number → 0 ≤ max_headers → 0 ≤ request_id →
     (message_bound
        (headers_request block_number max_headers request_id reverse)
      < 2 ^ 64)%N →
     ∃ payload,
       LESProtocol.send_get_block_headers MAX_HEADERS_FETCH block_number
         max_headers request_id reverse self
       = (Ok tt,
          with_sent self
            (cmd_id_offset self + GetBlockHeaders._cmd_id, payload))
       ∧ Command_decode_payload GetBlockHeaders.structure payload
         = Ok (list_to_map
                 [ ("request_id", PInt request_id);
                   ("query",
                     PObj [ PInt block_number; PInt max_headers; PInt 0;
                            PInt (if reverse then 1 else 0) ]) ]))
  ∧ ((LESProtocol.send_get_block_bodies MAX_BODIES_FETCH block_hashes
        bodies_id self).1
       = Raise (LESProtocol.too_many_bodies MAX_BODIES_FETCH)
     ↔ Z.of_nat (length block_hashes) > MAX_BODIES_FETCH)
  ∧ (Z.of_nat (length block_hashes) > MAX_BODIES_FETCH →
     LESProtocol.send_get_block_bodies MAX_BODIES_FETCH block_hashes
       bodies_id self
     = (Raise (LESProtocol.too_many_bodies MAX_BODIES_FETCH), self))
  ∧ (Z.of_nat (length block_hashes) ≤ MAX_BODIES_FETCH →
     0 ≤ bodies_id →
     (message_bound (bodies_request block_hashes bodies_id) < 2 ^ 64)%N →
     ∃ payload,
       LESProtocol.send_get_block_bodies MAX_BODIES_FETCH block_hashes
         bodies_id self
       = (Ok tt,
          with_sent self
            (cmd_id_offset self + GetBlockBodies._cmd_id, payload))
       ∧ Command_decode_payload GetBlockBodies.structure payload
         = Ok (list_to_map
                 [ ("request_id", PInt bodies_id);
                   ("block_hashes", PSeq (PBytes <$> block_hashes)) ])).
Proof.
  assert (∀ n limit : Z, n > limit → (n >? limit) = true) as Hgt
    by (intros; by apply Z.gtb_gt).
  repeat split.
  - intros Hraise.
    destruct (Z_gt_le_dec max_headers MAX_HEADERS_FETCH) as [|Hle]; [done|].
    rewrite send_get_block_headers_within in Hraise by done.
    destruct (Command_encode_payload GetBlockHeaders.structure
                (headers_request block_number max_headers request_id reverse))
      as [payload|e] eqn:Henc.
    + by rewrite (send_command_Ok GetBlockHeaders.command _ payload) in Hraise.
    + rewrite (send_command_Raise GetBlockHeaders.command _ e) in Hraise
        by done.
      apply headers_request_Raise, (too_many_headers_distinct MAX_HEADERS_FETCH)
        in Henc. simpl in Hraise. congruence.
  - intros Hmax. unfold LESProtocol.send_get_block_headers.
    by rewrite (Hgt _ _ Hmax).
  - intros Hmax. unfold LESProtocol.send_get_block_headers.
    by rewrite (Hgt _ _ Hmax).
  - intros Hle Hblock Hmax Hid Hbound.
    rewrite send_get_block_headers_within by done.
    destruct (Command_roundtrip GetBlockHeaders.structure
                [dom_uint; dom_obj [dom_uint; dom_uint; dom_uint; dom_uint]]
                (headers_request block_number max_headers request_id reverse)
                [PInt request_id;
                 PObj [ PInt block_number; PInt max_headers; PInt 0;
                        PInt (if reverse then 1 else 0) ]])
      as (payload & Henc & Hdec).
    + repeat constructor; try apply big_endian_int_ok.
      apply Serializable_ok. repeat constructor; apply big_endian_int_ok.
    + reflexivity.
    + simpl. rewrite !andb_true_iff, !Z.leb_le. by destruct reverse.
    + exact Hbound.
    + exists payload. split; [|exact Hdec].
      by apply (send_command_Ok GetBlockHeaders.command).
  - intros Hraise.
    destruct (Z_gt_le_dec (Z.of_nat (length block_hashes)) MAX_BODIES_FETCH)
      as [|Hle]; [done|].
    rewrite send_get_block_bodies_within in Hraise by done.
    destruct (Command_encode_payload GetBlockBodies.structure
                (bodies_request block_hashes bodies_id))
      as [payload|e] eqn:Henc.
    + by rewrite (send_command_Ok GetBlockBodies.command _ payload) in Hraise.
    + rewrite (send_command_Raise GetBlockBodies.command _ e) in Hraise
        by done.
      apply bodies_request_Raise, (too_many_bodies_distinct MAX_BODIES_FETCH)
        in Henc. simpl in Hraise. congruence.
  - intros Hmax. unfold LESProtocol.send_get_block_bodies.
    by rewrite (Hgt _ _ Hmax).
  - intros Hmax. unfold LESProtocol.send_get_block_bodies.
    by rewrite (Hgt _ _ Hmax).
  - intros Hle Hid Hbound.
    rewrite send_get_block_bodies_within by done.
    destruct (Command_roundtrip GetBlockBodies.structure
                [dom_uint; dom_seq dom_bytes]
                (bodies_request block_hashes bodies_id)
                [PInt bodies_id; PSeq (PBytes <$> block_hashes)])
      as (payload & Henc & Hdec).
    + repeat constructor; try apply big_endian_int_ok.
      apply CountableList_ok, binary_ok.
    + reflexivity.
    + simpl. rewrite forallb_dom_bytes, !andb_true_iff, !Z.leb_le. done.
    + exact Hbound.
    + exists payload. split; [|exact Hdec].
      by apply (send_command_Ok GetBlockBodies.command).
Qed.

Lemma request_limits_witness :
  (∃ payload,
     LESProtocol.send_get_block_headers 192 100 192 7 true example_protocol
     = (Ok tt, with_sent example_protocol (18, payload))
     ∧ Command_decode_payload GetBlockHeaders.structure payload
       = Ok (list_to_map
               [ ("request_id", PInt 7);
                 ("query", PObj [PInt 100; PInt 192; PInt 0; PInt 1]) ]))
  ∧ LESProtocol.send_get_block_headers 192 100 193 7 true example_protocol
    = (Raise (LESProtocol.too_many_headers 192), example_protocol)
  ∧ (∃ payload,
       LESProtocol.send_get_block_bodies 2 example_hashes 8 example_protocol
       = (Ok tt, with_sent example_protocol (20, payload))
       ∧ Command_decode_payload GetBlockBodies.structure payload
         = Ok (list_to_map
                 [ ("request_id", PInt 8);
                   ("block_hashes",
                     PSeq [PBytes [xaa; x01]; PBytes [xbb; x02]]) ]))
  ∧ LESProtocol.send_get_block_bodies 1 example_hashes 8 example_protocol
    = (Raise (LESProtocol.too_many_bodies 1), example_protocol).
Proof.
  split; [|split; [|split]].
  - apply (request_limits 2 192 example_protocol 100 192 7 true
             example_hashes 8); [lia|lia|lia|lia|by vm_compute].
  - apply (request_limits 2 192 example_protocol 100 193 7 true
             example_hashes 8). lia.
  - apply (request_limits 2 192 example_protocol 100 192 7 true
             example_hashes 8); [simpl; lia|lia|by vm_compute].
  - apply (request_limits 1 192 example_protocol 100 192 7 true
             example_hashes 8). simpl; lia.
Defined.

(** ** Round trips *)

Lemma typed_item_codec (key : string) (t : value_type) :
  assoc key items_type = Some t → t ≠ TFlag →
  ∃ s, assoc key Status.items_sedes = Some (Some s)
       ∧ codec_ok s (in_domain t)
       ∧ decode_ascii (str_to_bytes key) = Ok key.
Proof.
  unfold items_type, Status.items_sedes. cbn [assoc].
  repeat match goal with
         | |- context [String.eqb ?a key] =>
             destruct (String.eqb_spec a key) as [<-|_]
         end;
    try (intros [= <-] Hflag; by destruct Hflag);
    try (intros [= <-] _;
         eexists; split; [done|]; split; [|done];
         first [ apply big_endian_int_ok | apply binary_ok
               | apply CountableList_ok, List_ok;
                 repeat constructor; apply big_endian_int_ok ]).
Qed.

Lemma serialize_status_tuple (key : string) (w : pyval) :
  serializable w = true →
  serialize (List [binary; raw]) (PSeq [PStr key; w])
  = Ok (wire_pair (str_to_bytes key, w)).
Proof.
  intros Hw.
  change (serialize (List [binary; raw]) (PSeq [PStr key; w])) with
    (PSeq <$> (y ← Ok (PBytes (str_to_bytes key));
               ys ← (y' ← (if serializable w then Ok w
                           else Raise SerializationError);
                     ys' ← Ok []; Ok (y' :: ys'));
               Ok (y :: ys))).
  by rewrite Hw.
Qed.

Lemma deserialize_wire_pair (kv : bytes * pyval) :
  deserialize (List [binary; raw]) (wire_pair kv) = Ok (wire_pair kv).
Proof. by destruct kv. Qed.

Lemma deserialize_wire_pairs (pairs : list (bytes * pyval)) :
  deserialize Status.structure (PSeq (wire_pairs pairs))
  = Ok (PSeq (wire_pairs pairs)).
Proof.
  change (PSeq <$> mapM (deserialize (List [binary; raw])) (wire_pairs pairs)
          = Ok (PSeq (wire_pairs pairs))).
  assert (mapM (deserialize (List [binary; raw])) (wire_pairs pairs)
          = Ok (wire_pairs pairs)) as ->; [|done].
  induction pairs as [|kv pairs IH]; [done|].
  unfold wire_pairs in *.
  by rewrite fmap_cons, mapM_cons, deserialize_wire_pair, bind_Ok_l, IH.
Qed.

(** Serialising typed items one by one gives pairs that are serial, no
    larger than the items, and that the second pass of the decoder turns
    back into the items. *)
Lemma status_items_roundtrip (l : pydict) :
  Forall typed_item l →
  ∃ response pairs,
    mapM Status.encode_item l = Ok response
    ∧ mapM (serialize (List [binary; raw])) response = Ok (wire_pairs pairs)
    ∧ forallb serializable (wire_pairs pairs) = true
    ∧ (wire_bounds (wire_pairs pairs) ≤ wire_bounds (status_tuples l))%N
    ∧ Status.decode_items (wire_pairs pairs) = Ok l.
Proof.
  induction 1 as [|[key v] l (t & Ht & Hflag & Hdom) _
                    (response & pairs & Hresp & Hser & Hserial & Hsize & Hdec)].
  - by exists [], [].
  - cbn [fst snd] in *.
    destruct (typed_item_codec key t Ht Hflag) as (s & Hs & Hcodec & Hascii).
    destruct (Hcodec v Hdom) as (w & Hw & Hwserial & Hwsize & Hback).
    exists (PSeq [PStr key; w] :: response), ((str_to_bytes key, w) :: pairs).
    split; [|split; [|split; [|split]]].
    + assert (Status.encode_item (key, v) = Ok (PSeq [PStr key; w])) as Hitem
        by (unfold Status.encode_item; cbn [fst snd]; by rewrite Hs, Hw).
      by rewrite mapM_cons, Hitem, bind_Ok_l, Hresp.
    + unfold wire_pairs in *. rewrite mapM_cons, fmap_cons.
      by rewrite (serialize_status_tuple _ _ Hwserial), bind_Ok_l, Hser.
    + unfold wire_pairs in *. rewrite fmap_cons.
      cbn [forallb]. rewrite Hserial.
      change (wire_pair (str_to_bytes key, w))
        with (PSeq [PBytes (str_to_bytes key); w]).
      cbn [serializable forallb]. by rewrite Hwserial.
    + unfold wire_pairs, status_tuples in *. rewrite !fmap_cons.
      rewrite !wire_bounds_cons.
      change (wire_pair (str_to_bytes key, w))
        with (PSeq [PBytes (str_to_bytes key); w]).
      cbn [wire_bound fmap list_fmap foldr fst snd]. lia.
    + unfold wire_pairs in *. rewrite fmap_cons, decode_items_cons.
      cbn [fst snd]. rewrite Hascii, bind_Ok_l.
      unfold decode_value. by rewrite Hs, Hback, bind_Ok_l, Hdec.
Qed.

Lemma to_dict_snoc (l : list (string * pyval)) (kv : string * pyval) :
  to_dict (l ++ [kv]) = <[kv.1 := kv.2]> (to_dict l).
Proof. unfold to_dict. rewrite foldl_app. reflexivity. Qed.

Lemma to_dict_list_to_map (l : list (string * pyval)) :
  NoDup l.*1 → to_dict l = list_to_map l.
Proof.
  intros Hnd.
  assert (to_dict l = list_to_map (reverse l)) as ->.
  { clear Hnd. induction l as [|[k v] l IH] using rev_ind; [done|].
    by rewrite to_dict_snoc, reverse_snoc, IH. }
  apply list_to_map_proper; [|apply reverse_Permutation].
  rewrite fmap_reverse. by rewrite reverse_Permutation.
Qed.

Lemma wire_bounds_Permutation (l1 l2 : list pyval) :
  l1 ≡ₚ l2 → wire_bounds l1 = wire_bounds l2.
Proof.
  induction 1 as [|x l1 l2 _ IH|x y l|l1 l2 l3 _ IH1 _ IH2];
    rewrite ?wire_bounds_cons; [done|lia|lia|congruence].
Qed.

(** The Status part of the round trip. *)
Lemma status_roundtrip : roundtrips Status.command status_valid.
Proof.
  intros data (Hnd & Htyped & Hbound). cbn [command_encode_payload
    command_decode_payload Status.command].
  pose proof (sorted_items_Permutation data) as Hperm.
  assert (Forall typed_item (Status.sorted_items data)) as Hsorted
    by (by rewrite Hperm).
  destruct (status_items_roundtrip _ Hsorted)
    as (response & pairs & Hresp & Hser & Hserial & Hsize & Hdec).
  assert (wire_bounds (status_tuples (Status.sorted_items data))
          = wire_bounds (status_tuples data)) as Hsame.
  { apply wire_bounds_Permutation. unfold status_tuples. by rewrite Hperm. }
  destruct (rlp_raw_roundtrip (PSeq (wire_pairs pairs)))
    as (payload & Henc & Hraw).
  { done. }
  { unfold status_bound in Hbound. cbn [wire_bound] in *.
    fold (wire_bounds (wire_pairs pairs)).
    fold (wire_bounds (status_tuples data)) in Hbound. lia. }
  exists payload. split.
  - unfold Status.encode_payload. rewrite Hresp, bind_Ok_l.
    unfold Command_encode_payload_list, rlp_encode.
    change (serialize Status.structure (PSeq response)) with
      (PSeq <$> mapM (serialize (List [binary; raw])) response).
    by rewrite Hser.
  - unfold Status.decode_payload, Command_decode_payload_list, rlp_decode.
    rewrite Hraw, bind_Ok_l, deserialize_wire_pairs, bind_Ok_l, Hdec.
    change (to_dict <$> Ok (Status.sorted_items data))
      with (Ok (to_dict (Status.sorted_items data)) : result (gmap string pyval)).
    f_equal. rewrite to_dict_list_to_map by (by rewrite Hperm).
    apply list_to_map_proper; [by rewrite Hperm|done].
Qed.

Lemma lookup_list_to_map_assoc (l : list (string * pyval)) (key : string) :
  (list_to_map l : gmap string pyval) !! key = assoc key l.
Proof.
  induction l as [|[k v] l IH]; [done|].
  cbn [list_to_map foldr assoc]. fold (list_to_map l : gmap string pyval).
  destruct (String.eqb_spec k key) as [->|Hne].
  - apply lookup_insert_eq.
  - by rewrite lookup_insert_ne.
Qed.

Lemma assoc_zip_fields (structure : list (string * sedes)) (data : pydict)
    (values : list pyval) (key : string) :
  mapM (λ field, items_getitem data field.1) structure = Ok values →
  assoc key (zip structure.*1 values)
  = if bool_decide (key ∈ structure.*1) then assoc key data else None.
Proof.
  revert values. induction structure as [|[name s] structure IH];
    intros values Hvalues.
  - by injection Hvalues as <-.
  - rewrite mapM_cons in Hvalues.
    apply bind_Ok in Hvalues as (v & Hv & Hvalues).
    apply bind_Ok in Hvalues as (vs & Hvs & [= <-]).
    unfold items_getitem in Hv. cbn [fst] in Hv.
    destruct (assoc name data) as [v'|] eqn:Hname; [|done].
    injection Hv as ->.
    rewrite fmap_cons. cbn [zip zip_with assoc fst].
    destruct (String.eqb_spec name key) as [->|Hne].
    + rewrite bool_decide_eq_true_2 by apply list_elem_of_here. done.
    + rewrite (IH vs Hvs).
      destruct (decide (key ∈ structure.*1)) as [Hin|Hnotin].
      * rewrite !bool_decide_eq_true_2; [done| |done].
        by apply list_elem_of_further.
      * rewrite !bool_decide_eq_false_2; [done| |done].
        rewrite not_elem_of_cons. by split.
Qed.

Lemma assoc_notin {V} (l : list (string * V)) (key : string) :
  key ∉ l.*1 → assoc key l = None.
Proof.
  induction l as [|[k v] l IH]; [done|].
  rewrite fmap_cons, not_elem_of_cons. intros [Hne Hnotin].
  cbn [assoc]. destruct (String.eqb_spec k key); [done|]. by apply IH.
Qed.

Lemma fixed_roundtrip (cmd_id : Z) (structure : list (string * sedes))
    (Ds : list (pyval → bool)) :
  Forall2 codec_ok structure.*2 Ds →
  roundtrips {| command_id := cmd_id;
                command_encode_payload := Command_encode_payload structure;
                command_decode_payload := Command_decode_payload structure |}
    (fixed_valid structure Ds).
Proof.
  intros Hss data (Hkeys & values & Hvalues & Hdom & Hbound).
  cbn [command_encode_payload command_decode_payload].
  destruct (Command_roundtrip structure Ds data values Hss Hvalues Hdom Hbound)
    as (payload & Henc & Hdec).
  exists payload. split; [done|]. rewrite Hdec. f_equal.
  apply map_eq. intros key. rewrite !lookup_list_to_map_assoc.
  rewrite (assoc_zip_fields _ _ _ _ Hvalues).
  destruct (decide (key ∈ structure.*1)) as [Hin|Hnotin].
  - by rewrite bool_decide_eq_true_2.
  - rewrite bool_decide_eq_false_2 by done. symmetry. apply assoc_notin.
    intros Hin. by apply Hnotin, Hkeys.
Qed.

(** The part of C6 that holds.  Encoding and then decoding is the
    identity: for a Status dictionary whose keys have a sedes and whose
    values are of the declared types, and for the dictionaries of the five
    fixed-shape commands. *)
Theorem encode_decode_roundtrip (BlockHeader BaseTransaction : sedes)
    (header transaction : pyval → bool) :
  codec_ok BlockHeader header →
  codec_ok BaseTransaction transaction →
  roundtrips Status.command status_valid
  ∧ roundtrips Announce.command
      (fixed_valid Announce.structure Announce_types)
  ∧ roundtrips GetBlockHeaders.command
      (fixed_valid GetBlockHeaders.structure GetBlockHeaders_types)
  ∧ roundtrips (BlockHeaders.command BlockHeader)
      (fixed_valid (BlockHeaders.structure BlockHeader)
         (BlockHeaders_types header))
  ∧ roundtrips GetBlockBodies.command
      (fixed_valid GetBlockBodies.structure GetBlockBodies_types)
  ∧ roundtrips (BlockBodies.command BaseTransaction BlockHeader)
      (fixed_valid (BlockBodies.structure BaseTransaction BlockHeader)
         (BlockBodies_types transaction header)).
Proof.
  intros Hheader Htransaction.
  split; [apply status_roundtrip|].
  repeat split; apply fixed_roundtrip; repeat constructor;
    repeat first
      [ apply big_endian_int_ok | apply binary_ok | apply raw_ok
      | assumption
      | apply CountableList_ok
      | apply List_ok; repeat constructor
      | apply Serializable_ok; repeat constructor ].
Qed.

Lemma encode_decode_roundtrip_example :
  ∃ payload,
    Status.encode_payload status_from_handshake = Ok payload
    ∧ Status.decode_payload payload
      = Ok (list_to_map status_from_handshake).
Proof.
  refine (proj1 (encode_decode_roundtrip binary binary dom_bytes dom_bytes
                   binary_ok binary_ok) status_from_handshake _).
  split; [|split].
  - apply (bool_decide_unpack _). by vm_compute.
  - unfold status_from_handshake.
    repeat constructor; eexists; (split; [reflexivity|by split]).
  - by vm_compute.
Defined.

(** C6 fails on the code for the keys [serveHeaders] and [txRelay], which
    are known keys.  The payload with the pair ([serveHeaders], empty byte
    string) decodes to the dictionary that has the empty byte string for
    [serveHeaders]; encoding that dictionary raises [AttributeError], so
    there is nothing to decode.  The same holds for [txRelay]. *)
Lemma presence_flag_no_roundtrip :
  assoc "serveHeaders" Status.items_sedes = Some None
  ∧ (m ← Status.decode_payload payload_serve_headers;
     Ok (m !! "serveHeaders")) = Ok (Some (PBytes []))
  ∧ Status.encode_payload [("serveHeaders", PBytes [])]
    = Raise AttributeError
  ∧ Status.encode_payload [("txRelay", PBytes [])] = Raise AttributeError.
Proof. vm_compute. repeat split. Qed.

(** * Further properties of the module *)

(** ** Decoding a Status payload, read backwards *)

Lemma decode_ascii_inv (k : bytes) (key : string) :
  decode_ascii k = Ok key →
  forallb is_ascii_byte k = true ∧ key = string_of_list_byte k.
Proof.
  unfold decode_ascii. destruct (forallb is_ascii_byte k); [|done].
  by intros [= <-].
Qed.

Lemma decode_items_Ok_inv (pairs : list (bytes * pyval))
    (ys : list (string * pyval)) :
  Status.decode_items (wire_pairs pairs) = Ok ys →
  Forall pair_ok pairs ∧ ys = omap decoded_pair pairs.
Proof.
  revert ys. induction pairs as [|kv pairs IH]; intros ys.
  - intros [= <-]. by split.
  - unfold wire_pairs. rewrite fmap_cons, decode_items_cons.
    fold (wire_pairs pairs).
    intros (key & [Hascii ->]%decode_ascii_inv & Hrest)%bind_Ok.
    change (omap decoded_pair (kv :: pairs)) with
      (match decoded_pair kv with
       | Some y => y :: omap decoded_pair pairs
       | None => omap decoded_pair pairs
       end).
    unfold decoded_pair at 1, pair_ok at 1.
    destruct (decode_value (string_of_list_byte kv.1) kv.2) as [r|] eqn:Hr.
    + apply bind_Ok in Hrest as (y & -> & Hrest).
      apply bind_Ok in Hrest as (ys' & Hys' & [= <-]).
      destruct (IH _ Hys') as [Hok ->]. split; [|done].
      constructor; [|done]. split; [done|]. rewrite Hr. by intros ? [= <-].
    + destruct (IH _ Hrest) as [Hok ->]. split; [|done].
      constructor; [|done]. split; [done|]. by rewrite Hr.
Qed.

Lemma decode_payload_Ok_inv (rlp_data : bytes) (m : gmap string pyval) :
  Status.decode_payload rlp_data = Ok m →
  ∃ pairs,
    Command_decode_payload_list Status.structure rlp_data
      = Ok (PSeq (wire_pairs pairs))
    ∧ Forall pair_ok pairs
    ∧ m = to_dict (omap decoded_pair pairs).
Proof.
  unfold Status.decode_payload.
  intros (data & Hdata & Hm)%bind_Ok.
  destruct (decode_payload_list_pairs _ _ Hdata) as [pairs ->].
  apply fmap_Ok in Hm as (ys & [Hok ->]%decode_items_Ok_inv & ->).
  by exists pairs.
Qed.

Lemma to_dict_lookup_elem (l : list (string * pyval)) (key : string)
    (v : pyval) :
  to_dict l !! key = Some v → (key, v) ∈ l.
Proof.
  induction l as [|[k x] l IH] using rev_ind; [done|].
  rewrite to_dict_snoc. cbn [fst snd]. rewrite elem_of_app.
  destruct (decide (k = key)) as [->|Hne].
  - rewrite lookup_insert_eq. intros [= <-]. right. apply list_elem_of_here.
  - rewrite lookup_insert_ne by done. intros H. left. by apply IH.
Qed.

(** An entry of a decoded dictionary comes from a pair of the payload. *)
Lemma decode_payload_entry (rlp_data : bytes) (m : gmap string pyval)
    (key : string) (v : pyval) :
  Status.decode_payload rlp_data = Ok m →
  m !! key = Some v →
  ∃ raw_value, decode_value key raw_value = Some (Ok v).
Proof.
  intros (pairs & _ & _ & ->)%decode_payload_Ok_inv Hlookup.
  apply to_dict_lookup_elem, list_elem_of_omap in Hlookup as (kv & _ & Hdec).
  apply decoded_pair_key in Hdec as [_ Hval]. by exists kv.2.
Qed.

(** ** What the sedes of the Status table return *)

Lemma big_endian_int_lands : codec_lands big_endian_int dom_uint.
Proof.
  intros [n|t|[|b bs]|l|l] v; simpl; try done.
  - by intros [= <-].
  - destruct (Byte.to_N b =? 0)%N; [done|]. intros [= <-]. simpl.
    apply Z.leb_le. lia.
Qed.

Lemma binary_lands : codec_lands binary dom_bytes.
Proof. intros [n|t|b|l|l] v; simpl; try done. by intros [= <-]. Qed.

Lemma zip_apply_lands (ss : list sedes) (Ds : list (pyval → bool))
    (l vs : list pyval) :
  Forall2 codec_lands ss Ds →
  zip_apply DeserializationError (deserialize <$> ss) l = Ok vs →
  zip_all Ds vs = true.
Proof.
  intros Hss. revert l vs.
  induction Hss as [|s D ss Ds Hs _ IH]; intros [|w l] vs; try done.
  - by intros [= <-].
  - rewrite fmap_cons, zip_apply_cons.
    intros (y & Hy & (ys & Hys & [= <-])%bind_Ok)%bind_Ok.
    simpl. by rewrite (Hs _ _ Hy), (IH _ _ Hys).
Qed.

Lemma List_lands (ss : list sedes) (Ds : list (pyval → bool)) :
  Forall2 codec_lands ss Ds → codec_lands (List ss) (dom_tuple Ds).
Proof.
  intros Hss [n|t|b|l|l] v; simpl; try done.
  intros (vs & Hvs & ->)%fmap_Ok. simpl. by eapply zip_apply_lands.
Qed.

Lemma CountableList_lands (s : sedes) (D : pyval → bool) :
  codec_lands s D → codec_lands (CountableList s) (dom_seq D).
Proof.
  intros Hs [n|t|b|l|l] v; simpl; try done.
  intros (vs & Hvs%mapM_Ok_Forall2 & ->)%fmap_Ok. simpl.
  induction Hvs as [|w y l vs Hy _ IH]; [done|].
  simpl. by rewrite (Hs _ _ Hy), IH.
Qed.

Lemma typed_item_lands (key : string) (t : value_type) :
  assoc key items_type = Some t → t ≠ TFlag →
  ∃ s, assoc key Status.items_sedes = Some (Some s)
       ∧ codec_lands s (in_domain t).
Proof.
  unfold items_type, Status.items_sedes. cbn [assoc].
  repeat match goal with
         | |- context [String.eqb ?a key] =>
             destruct (String.eqb_spec a key) as [<-|_]
         end;
    try (intros [= <-] Hflag; by destruct Hflag);
    try (intros [= <-] _;
         eexists; split; [done|];
         first [ apply big_endian_int_lands | apply binary_lands
               | apply CountableList_lands, List_lands;
                 repeat constructor; apply big_endian_int_lands ]).
Qed.

Lemma decode_payload_entry_typed (rlp_data : bytes) (m : gmap string pyval)
    (key : string) (v : pyval) (t : value_type) :
  Status.decode_payload rlp_data = Ok m →
  m !! key = Some v →
  assoc key items_type = Some t → t ≠ TFlag →
  in_domain t v = true.
Proof.
  intros Hm Hv Ht Hflag.
  destruct (decode_payload_entry _ _ _ _ Hm Hv) as (w & Hw).
  destruct (typed_item_lands _ _ Ht Hflag) as (s & Hs & Hlands).
  unfold decode_value in Hw. rewrite Hs in Hw.
  injection Hw as Hw. by apply (Hlands w).
Qed.

(** ** The second pass of the Status decoder *)

(** X1. Whatever the payload, a dictionary that [Status.decode_payload]
    returns has no key outside the table [items_sedes]. *)
Theorem decode_payload_known_keys_only (rlp_data : bytes)
    (m : gmap string pyval) (key : string) :
  Status.decode_payload rlp_data = Ok m →
  is_Some (m !! key) →
  is_Some (assoc key Status.items_sedes).
Proof.
  intros Hm [v Hv].
  destruct (decode_payload_entry _ _ _ _ Hm Hv) as (w & Hw).
  unfold decode_value in Hw.
  destruct (assoc key Status.items_sedes); [eauto|done].
Qed.

Lemma decode_payload_known_keys_only_witness :
  Status.decode_payload payload_unknown_keys = Ok decoded_unknown_keys
  ∧ is_Some (assoc "headNum" Status.items_sedes).
Proof.
  assert (Status.decode_payload payload_unknown_keys
          = Ok decoded_unknown_keys) as Hm by (vm_compute; reflexivity).
  split; [exact Hm|].
  apply (decode_payload_known_keys_only payload_unknown_keys
           decoded_unknown_keys "headNum" Hm).
  vm_compute. eauto.
Defined.

(** X2. Every value in a dictionary that [Status.decode_payload] returns
    has the type of the sedes of its key: a non-negative integer under a
    [big_endian_int] key, a byte string under a [binary] key, a sequence
    of triples of non-negative integers under [flowControl/MRC]. *)
Theorem decode_payload_typed (rlp_data : bytes) (m : gmap string pyval)
    (key : string) (v : pyval) :
  Status.decode_payload rlp_data = Ok m →
  m !! key = Some v →
  match assoc key items_type with
  | Some TUint => ∃ n, v = PInt n ∧ 0 ≤ n
  | Some TBytes => ∃ b, v = PBytes b
  | Some TCostTable =>
      ∃ rows, v = PSeq rows
        ∧ Forall (λ row, ∃ a b c,
                    row = PSeq [PInt a; PInt b; PInt c]
                    ∧ 0 ≤ a ∧ 0 ≤ b ∧ 0 ≤ c) rows
  | _ => True
  end.
Proof.
  intros Hm Hv.
  destruct (assoc key items_type) as [t|] eqn:Ht; [|done].
  destruct t; try done;
    pose proof (decode_payload_entry_typed _ _ _ _ _ Hm Hv Ht) as Hdom;
    specialize (Hdom ltac:(done)); simpl in Hdom.
  - destruct v as [n| | | |]; try done. exists n. split; [done|].
    by apply Z.leb_le.
  - destruct v as [| |b| |]; try done. by exists b.
  - destruct v as [| | |rows|]; try done. exists rows. split; [done|].
    clear Hv. simpl in Hdom. induction rows as [|row rows IH]; [done|].
    simpl in Hdom. apply andb_true_iff in Hdom as [Hrow Hrows].
    constructor; [|by apply IH]. clear IH Hrows.
    destruct row as [| | |[|[a| | | |] [|[b| | | |] [|[c| | | |] [|]]]]|];
      simpl in Hrow; rewrite ?andb_false_r in Hrow; try done.
    rewrite !andb_true_iff, !Z.leb_le in Hrow.
    destruct Hrow as (Ha & Hb & Hc & _). by exists a, b, c.
Qed.

Lemma decode_payload_typed_witness :
  ∃ n, PInt 9 = PInt n ∧ 0 ≤ n.
Proof.
  apply (decode_payload_typed payload_unknown_keys decoded_unknown_keys
           "headNum" (PInt 9)); vm_compute; reflexivity.
Defined.

(** X3. For a payload whose first pass gives the pairs [pairs],
    [Status.decode_payload] returns exactly when every key is ASCII and
    every value of a key of the table is one the sedes of the key
    deserialises; the dictionary is then built from the decoded pairs. *)
Theorem decode_payload_succeeds_iff (rlp_data : bytes)
    (pairs : list (bytes * pyval)) :
  Command_decode_payload_list Status.structure rlp_data
    = Ok (PSeq (wire_pairs pairs)) →
  (is_Ok (Status.decode_payload rlp_data) ↔ Forall pair_ok pairs)
  ∧ ∀ m, Status.decode_payload rlp_data = Ok m →
         m = to_dict (omap decoded_pair pairs).
Proof.
  intros Hpairs. split; [split|].
  - destruct (Status.decode_payload rlp_data) as [m|e] eqn:Hm; [|done].
    intros _. unfold Status.decode_payload in Hm.
    rewrite Hpairs, bind_Ok_l in Hm.
    by apply fmap_Ok in Hm as (ys & [Hok _]%decode_items_Ok_inv & _).
  - intros Hok. rewrite (decode_payload_pairs _ _ Hpairs).
    by rewrite (decode_items_ok _ Hok).
  - intros m Hm. unfold Status.decode_payload in Hm.
    rewrite Hpairs, bind_Ok_l in Hm.
    by apply fmap_Ok in Hm as (ys & [_ ->]%decode_items_Ok_inv & ->).
Qed.

Lemma decode_payload_succeeds_iff_witness :
  (is_Ok (Status.decode_payload payload_rejected_value)
   ↔ Forall pair_ok [ (str_to_bytes "future", PBytes []);
                      (str_to_bytes "networkId", PBytes [x00; x01]) ])
  ∧ ∀ m, Status.decode_payload payload_rejected_value = Ok m →
         m = to_dict (omap decoded_pair
                        [ (str_to_bytes "future", PBytes []);
                          (str_to_bytes "networkId", PBytes [x00; x01]) ]).
Proof.
  apply (decode_payload_succeeds_iff payload_rejected_value).
  vm_compute. reflexivity.
Defined.

(** X4. Pairs whose key is not in the table never change what
    [Status.decode_payload] does, success or failure, as long as the keys
    of the payload are ASCII: the outcome is that of the payload without
    these pairs. *)
Theorem decode_payload_ignores_unknown (rlp_data rlp_known : bytes)
    (pairs : list (bytes * pyval)) :
  Command_decode_payload_list Status.structure rlp_data
    = Ok (PSeq (wire_pairs pairs)) →
  Command_decode_payload_list Status.structure rlp_known
    = Ok (PSeq (wire_pairs (filter is_known pairs))) →
  Forall has_ascii_key pairs →
  Status.decode_payload rlp_data = Status.decode_payload rlp_known.
Proof.
  intros Hdata Hknown Hascii.
  rewrite (decode_payload_pairs _ _ Hdata), (decode_payload_pairs _ _ Hknown).
  by rewrite (decode_items_filter_known _ Hascii).
Qed.

Lemma decode_payload_ignores_unknown_witness :
  Status.decode_payload payload_rejected_value
  = Status.decode_payload payload_leading_zero.
Proof.
  apply (decode_payload_ignores_unknown payload_rejected_value
           payload_leading_zero
           [ (str_to_bytes "future", PBytes []);
             (str_to_bytes "networkId", PBytes [x00; x01]) ]).
  - vm_compute. reflexivity.
  - vm_compute. reflexivity.
  - repeat constructor.
Defined.

(** ** [process_handshake], case by case *)

Lemma process_handshake_cases (decoded_msg : gmap string pyval)
    (self : Protocol) :
  LESProtocol.process_handshake decoded_msg self
  = match decoded_msg !! "networkId" with
    | None => (Raise (KeyError "networkId"), self)
    | Some theirs =>
        if py_ne theirs (PInt (network_id (peer self))) then
          (Raise (HandshakeFailure other),
           with_logged self
             (NetworkDoesNotMatch theirs (network_id (peer self))))
        else
          match decoded_msg !! "genesisHash" with
          | None => (Raise (KeyError "genesisHash"), self)
          | Some genesis =>
              if py_ne genesis (PBytes (genesis_hash (peer self))) then
                match encode_hex genesis with
                | Ok hex =>
                    (Raise (HandshakeFailure other),
                     with_logged self
                       (GenesisDoesNotMatch hex (genesis_hash (peer self))))
                | Raise e => (Raise e, self)
                end
              else (Ok tt, self)
          end
    end.
Proof.
  unfold LESProtocol.process_handshake, mbind, action_bind, self_peer, lift,
    getitem, logger_debug, raise, mret, action_ret.
  destruct (decoded_msg !! "networkId") as [theirs|]; [|done].
  destruct (py_ne theirs _); [done|].
  destruct (decoded_msg !! "genesisHash") as [genesis|]; [|done].
  destruct (py_ne genesis _); [|done].
  by destruct (encode_hex genesis).
Qed.

(** X5. [process_handshake] returns exactly when the message has the
    network id and the genesis hash of the local peer under [networkId]
    and [genesisHash]; the protocol object is then as it was. *)
Theorem process_handshake_accepts_iff (decoded_msg : gmap string pyval)
    (self : Protocol) :
  ((LESProtocol.process_handshake decoded_msg self).1 = Ok tt
   ↔ decoded_msg !! "networkId" = Some (PInt (network_id (peer self)))
     ∧ decoded_msg !! "genesisHash"
       = Some (PBytes (genesis_hash (peer self))))
  ∧ ((LESProtocol.process_handshake decoded_msg self).1 = Ok tt
     → (LESProtocol.process_handshake decoded_msg self).2 = self).
Proof.
  rewrite process_handshake_cases.
  destruct (decoded_msg !! "networkId") as [theirs|];
    [|split; [split; [done|by intros [? _]]|done]].
  destruct (py_ne theirs _) eqn:Hn.
  { apply py_ne_true in Hn. split; [split; [done|]|done].
    by intros [[= ->] _]. }
  apply py_ne_false in Hn as ->.
  destruct (decoded_msg !! "genesisHash") as [genesis|];
    [|split; [split; [done|by intros [_ ?]]|done]].
  destruct (py_ne genesis _) eqn:Hg.
  { apply py_ne_true in Hg. split.
    - split; [by destruct (encode_hex genesis)|]. by intros [_ [= ->]].
    - by destruct (encode_hex genesis). }
  apply py_ne_false in Hg as ->. by split.
Qed.

Lemma process_handshake_accepts_iff_witness :
  (LESProtocol.process_handshake example_status example_protocol).1 = Ok tt
  ∧ (LESProtocol.process_handshake example_status example_protocol).2
    = example_protocol.
Proof.
  destruct (process_handshake_accepts_iff example_status example_protocol)
    as [[_ Haccept] Hsame].
  assert ((LESProtocol.process_handshake example_status example_protocol).1
          = Ok tt) as Hok by (apply Haccept; split; reflexivity).
  split; [exact Hok|exact (Hsame Hok)].
Defined.

(** X6. A message without [networkId] makes [process_handshake] raise
    [KeyError] for that key; a message with the local network id and without
    [genesisHash] makes it raise [KeyError] for [genesisHash].  Nothing is
    logged in either case. *)
Theorem process_handshake_missing_key (decoded_msg : gmap string pyval)
    (self : Protocol) :
  (decoded_msg !! "networkId" = None →
   LESProtocol.process_handshake decoded_msg self
   = (Raise (KeyError "networkId"), self))
  ∧ (decoded_msg !! "networkId" = Some (PInt (network_id (peer self))) →
     decoded_msg !! "genesisHash" = None →
     LESProtocol.process_handshake decoded_msg self
     = (Raise (KeyError "genesisHash"), self)).
Proof.
  rewrite process_handshake_cases. split.
  - by intros ->.
  - intros -> ->.
    by rewrite (proj2 (py_ne_false _ _) eq_refl).
Qed.

Lemma process_handshake_missing_key_witness :
  LESProtocol.process_handshake ∅ example_protocol
  = (Raise (KeyError "networkId"), example_protocol)
  ∧ LESProtocol.process_handshake (<["networkId" := PInt 1]> ∅)
      example_protocol
    = (Raise (KeyError "genesisHash"), example_protocol).
Proof.
  split.
  - apply (process_handshake_missing_key ∅ example_protocol). reflexivity.
  - apply (process_handshake_missing_key (<["networkId" := PInt 1]> ∅)
             example_protocol); reflexivity.
Defined.

(** X7. [process_handshake] never sends and never touches the peer or the
    offset of the command codes.  It raises [HandshakeFailure] exactly when
    it has logged one record; in every other case the protocol object is
    as it was. *)
Theorem process_handshake_frame (decoded_msg : gmap string pyval)
    (self : Protocol) :
  peer (LESProtocol.process_handshake decoded_msg self).2 = peer self
  ∧ cmd_id_offset (LESProtocol.process_handshake decoded_msg self).2
    = cmd_id_offset self
  ∧ outbox (LESProtocol.process_handshake decoded_msg self).2 = outbox self
  ∧ ((LESProtocol.process_handshake decoded_msg self).1
       = Raise (HandshakeFailure other)
     ↔ ∃ r, logged (LESProtocol.process_handshake decoded_msg self).2
            = logged self ++ [r])
  ∧ ((LESProtocol.process_handshake decoded_msg self).1
       ≠ Raise (HandshakeFailure other)
     → (LESProtocol.process_handshake decoded_msg self).2 = self).
Proof.
  assert (∀ r, logged self ≠ logged self ++ [r]) as Hlog.
  { intros r H. apply (f_equal length) in H.
    rewrite length_app in H. simpl in H. lia. }
  rewrite process_handshake_cases.
  destruct (decoded_msg !! "networkId") as [theirs|].
  2: { repeat split; try done. by intros [r ?%Hlog]. }
  destruct (py_ne theirs _).
  { repeat split; try done. simpl. eauto. }
  destruct (decoded_msg !! "genesisHash") as [genesis|].
  2: { repeat split; try done. by intros [r ?%Hlog]. }
  destruct (py_ne genesis _).
  2: { repeat split; try done. by intros [r ?%Hlog]. }
  destruct genesis; simpl; repeat split; try done; eauto;
    by intros [r ?%Hlog].
Qed.

Lemma process_handshake_frame_witness :
  ∃ r, logged (LESProtocol.process_handshake wrong_network
                 example_protocol).2
       = logged example_protocol ++ [r].
Proof.
  destruct (process_handshake_frame wrong_network example_protocol)
    as (_ & _ & _ & [Hlogged _] & _).
  apply Hlogged. reflexivity.
Defined.

(** X8. [process_handshake] reads [networkId] and [genesisHash] and
    nothing else: setting or removing any other key, [serveHeaders]
    included, changes neither the outcome nor the log. *)
Theorem process_handshake_ignores_other_keys
    (decoded_msg : gmap string pyval) (key : string) (v : pyval)
    (self : Protocol) :
  key ≠ "networkId" → key ≠ "genesisHash" →
  LESProtocol.process_handshake (<[key := v]> decoded_msg) self
  = LESProtocol.process_handshake decoded_msg self
  ∧ LESProtocol.process_handshake (delete key decoded_msg) self
    = LESProtocol.process_handshake decoded_msg self.
Proof.
  intros Hn Hg. rewrite !process_handshake_cases.
  by rewrite !lookup_insert_ne, !lookup_delete_ne.
Qed.

Lemma process_handshake_ignores_other_keys_witness :
  LESProtocol.process_handshake
    (<["serveHeaders" := PBytes []]> example_status) example_protocol
  = LESProtocol.process_handshake example_status example_protocol
  ∧ LESProtocol.process_handshake (delete "serveHeaders" example_status)
      example_protocol
    = LESProtocol.process_handshake example_status example_protocol.
Proof.
  apply (process_handshake_ignores_other_keys example_status "serveHeaders"
           (PBytes []) example_protocol); discriminate.
Defined.

(** X9. On a dictionary that [Status.decode_payload] returned,
    [process_handshake] has one of four outcomes: it returns, it raises
    [HandshakeFailure(DisconnectReason.other)], or it raises [KeyError] for
    a missing [networkId] or [genesisHash].  The hexadecimal rendering of
    the remote genesis hash cannot fail, since a decoded [genesisHash] is a
    byte string. *)
Theorem process_handshake_after_decode (rlp_data : bytes)
    (m : gmap string pyval) (self : Protocol) :
  Status.decode_payload rlp_data = Ok m →
  (LESProtocol.process_handshake m self).1 = Ok tt
  ∨ (LESProtocol.process_handshake m self).1
    = Raise (HandshakeFailure other)
  ∨ (m !! "networkId" = None
     ∧ (LESProtocol.process_handshake m self).1
       = Raise (KeyError "networkId"))
  ∨ (m !! "genesisHash" = None
     ∧ (LESProtocol.process_handshake m self).1
       = Raise (KeyError "genesisHash")).
Proof.
  intros Hm. rewrite process_handshake_cases.
  destruct (m !! "networkId") as [theirs|]; [|by right; right; left].
  destruct (py_ne theirs _); [by right; left|].
  destruct (m !! "genesisHash") as [genesis|] eqn:Hgenesis;
    [|by right; right; right].
  destruct (py_ne genesis _); [|by left].
  pose proof (decode_payload_entry_typed _ _ _ _ TBytes Hm Hgenesis
                eq_refl ltac:(done)) as Hdom.
  destruct genesis; try done. by right; left.
Qed.

Lemma process_handshake_after_decode_witness :
  (LESProtocol.process_handshake decoded_unknown_keys example_protocol).1
  = Raise (KeyError "networkId").
Proof.
  destruct (process_handshake_after_decode payload_unknown_keys
              decoded_unknown_keys example_protocol)
    as [H|[H|[[_ H]|[_ H]]]].
  - vm_compute. reflexivity.
  - discriminate H.
  - discriminate H.
  - exact H.
  - discriminate H.
Defined.

(** ** [as_head_info] on dictionaries that lack a key *)

(** X10. [Status.as_head_info] returns exactly when the dictionary has
    [headNum], [headHash] and [headTd]; otherwise it raises [KeyError] for
    the first of them, in this order, that is missing.
    [Announce.as_head_info] does the same with [head_number], [head_hash],
    [head_td] and [reorg_depth]. *)
Theorem as_head_info_missing_key (decoded : gmap string pyval) :
  (is_Ok (Status.as_head_info decoded)
   ↔ is_Some (decoded !! "headNum") ∧ is_Some (decoded !! "headHash")
     ∧ is_Some (decoded !! "headTd"))
  ∧ (decoded !! "headNum" = None →
     Status.as_head_info decoded = Raise (KeyError "headNum"))
  ∧ (is_Some (decoded !! "headNum") → decoded !! "headHash" = None →
     Status.as_head_info decoded = Raise (KeyError "headHash"))
  ∧ (is_Some (decoded !! "headNum") → is_Some (decoded !! "headHash") →
     decoded !! "headTd" = None →
     Status.as_head_info decoded = Raise (KeyError "headTd"))
  ∧ (is_Ok (Announce.as_head_info decoded)
     ↔ is_Some (decoded !! "head_number") ∧ is_Some (decoded !! "head_hash")
       ∧ is_Some (decoded !! "head_td")
       ∧ is_Some (decoded !! "reorg_depth"))
  ∧ (decoded !! "head_number" = None →
     Announce.as_head_info decoded = Raise (KeyError "head_number"))
  ∧ (is_Some (decoded !! "head_number") → decoded !! "head_hash" = None →
     Announce.as_head_info decoded = Raise (KeyError "head_hash"))
  ∧ (is_Some (decoded !! "head_number") → is_Some (decoded !! "head_hash") →
     decoded !! "head_td" = None →
     Announce.as_head_info decoded = Raise (KeyError "head_td"))
  ∧ (is_Some (decoded !! "head_number") → is_Some (decoded !! "head_hash") →
     is_Some (decoded !! "head_td") → decoded !! "reorg_depth" = None →
     Announce.as_head_info decoded = Raise (KeyError "reorg_depth")).
Proof.
  unfold Status.as_head_info, Announce.as_head_info, getitem.
  refine (conj _ (conj _ (conj _ (conj _ _)))).
  5: destruct (decoded !! "head_number"), (decoded !! "head_hash"),
       (decoded !! "head_td"), (decoded !! "reorg_depth").
  1-4: destruct (decoded !! "headNum"), (decoded !! "headHash"),
         (decoded !! "headTd").
  all: simpl; repeat split; intros;
    repeat match goal with
           | H : _ ∧ _ |- _ => destruct H
           | H : is_Some None |- _ => by destruct H
           end; try done; by eexists.
Qed.

Lemma as_head_info_missing_key_witness :
  Status.as_head_info (<["headNum" := PInt 9]> ∅)
  = Raise (KeyError "headHash")
  ∧ Announce.as_head_info (<["head_number" := PInt 9]> ∅)
    = Raise (KeyError "head_hash").
Proof.
  split.
  - apply (as_head_info_missing_key (<["headNum" := PInt 9]> ∅));
      [by eexists|reflexivity].
  - apply (as_head_info_missing_key (<["head_number" := PInt 9]> ∅));
      [by eexists|reflexivity].
Defined.

(** X11. The head information read from a dictionary that
    [Status.decode_payload] returned has a non-negative block number, a
    byte string as block hash, a non-negative total difficulty and a reorg
    depth of 0. *)
Theorem as_head_info_after_decode (rlp_data : bytes)
    (m : gmap string pyval) (head : HeadInfo) :
  Status.decode_payload rlp_data = Ok m →
  Status.as_head_info m = Ok head →
  ∃ n h td,
    head = {| block_number := PInt n; block_hash := PBytes h;
              total_difficulty := PInt td; reorg_depth := PInt 0 |}
    ∧ m !! "headNum" = Some (PInt n)
    ∧ m !! "headHash" = Some (PBytes h)
    ∧ m !! "headTd" = Some (PInt td)
    ∧ 0 ≤ n ∧ 0 ≤ td.
Proof.
  intros Hm. unfold Status.as_head_info, getitem.
  destruct (m !! "headNum") as [n|] eqn:Hn; [|done].
  destruct (m !! "headHash") as [h|] eqn:Hh; [|done].
  destruct (m !! "headTd") as [td|] eqn:Htd; [|done].
  intros [= <-].
  pose proof (decode_payload_entry_typed _ _ _ _ TUint Hm Hn eq_refl
                ltac:(done)) as Hdn.
  pose proof (decode_payload_entry_typed _ _ _ _ TBytes Hm Hh eq_refl
                ltac:(done)) as Hdh.
  pose proof (decode_payload_entry_typed _ _ _ _ TUint Hm Htd eq_refl
                ltac:(done)) as Hdtd.
  destruct n as [n| | | |], h as [| |h| |], td as [td| | | |]; try done.
  simpl in Hdn, Hdtd. apply Z.leb_le in Hdn, Hdtd.
  by exists n, h, td.
Qed.

Lemma as_head_info_after_decode_witness :
  ∃ n h td,
    {| block_number := PInt 150; block_hash := PBytes [x01; x02];
       total_difficulty := PInt 5000; reorg_depth := PInt 0 |}
    = {| block_number := PInt n; block_hash := PBytes h;
         total_difficulty := PInt td; reorg_depth := PInt 0 |}
    ∧ decoded_handshake !! "headNum" = Some (PInt n)
    ∧ decoded_handshake !! "headHash" = Some (PBytes h)
    ∧ decoded_handshake !! "headTd" = Some (PInt td)
    ∧ 0 ≤ n ∧ 0 ≤ td.
Proof.
  assert (Status.decode_payload payload_handshake = Ok decoded_handshake)
    as Hm by (vm_compute; reflexivity).
  assert (Status.as_head_info decoded_handshake
          = Ok {| block_number := PInt 150; block_hash := PBytes [x01; x02];
                  total_difficulty := PInt 5000; reorg_depth := PInt 0 |})
    as Hhead by (vm_compute; reflexivity).
  exact (as_head_info_after_decode _ _ _ Hm Hhead).
Defined.

(** ** Sending *)

Lemma send_handshake_cases (head_info : head_info.t) (self : Protocol) :
  LESProtocol.send_handshake head_info self
  = match Status.encode_payload (handshake_resp (peer self) head_info) with
    | Ok payload =>
        (Ok tt,
         with_logged
           (with_sent self (cmd_id_offset self + Status._cmd_id, payload))
           (SendingStatus (handshake_resp (peer self) head_info)))
    | Raise e => (Raise e, self)
    end.
Proof.
  unfold LESProtocol.send_handshake, self_peer.
  unfold mbind at 1, action_bind at 1. cbn beta iota zeta.
  fold (handshake_resp (peer self) head_info).
  unfold mbind at 1, action_bind at 1.
  destruct (Status.encode_payload (handshake_resp (peer self) head_info))
    as [payload|e] eqn:Henc.
  - by rewrite (send_command_Ok Status.command _ payload).
  - by rewrite (send_command_Raise Status.command _ e).
Qed.

Lemma handshake_resp_valid (p : Peer) (head_info : head_info.t) :
  0 ≤ network_id p →
  head_info_typed head_info →
  (status_bound (handshake_resp p head_info) < 2 ^ 64)%N →
  status_valid (handshake_resp p head_info).
Proof.
  intros Hid (Htd & Hhash & Hnum & Hgenesis) Hbound.
  split; [|split; [|done]].
  - apply (bool_decide_unpack _). by vm_compute.
  - unfold handshake_resp. repeat constructor.
    + exists TUint. by repeat split.
    + exists TUint. repeat split; [done|]. by apply Z.leb_le.
    + exists TUint. by repeat split.
    + exists TBytes. by repeat split.
    + exists TUint. by repeat split.
    + exists TBytes. by repeat split.
Qed.

(** X12. With a non-negative network id and a [head_info] that has
    non-negative integers as total difficulty and block number and byte
    strings as block hash and genesis hash, [send_handshake] sends one
    message, with the command code of Status at the offset of the
    protocol, and then logs the dictionary it sent.  The payload decodes
    to that dictionary: protocol version 1, the network id of the peer and
    the four values of [head_info]. *)
Theorem send_handshake_sends_status (head_info : head_info.t)
    (self : Protocol) :
  0 ≤ network_id (peer self) →
  head_info_typed head_info →
  (status_bound (handshake_resp (peer self) head_info) < 2 ^ 64)%N →
  ∃ payload,
    LESProtocol.send_handshake head_info self
    = (Ok tt,
       with_logged
         (with_sent self (cmd_id_offset self + Status._cmd_id, payload))
         (SendingStatus (handshake_resp (peer self) head_info)))
    ∧ Status.decode_payload payload
      = Ok (list_to_map (handshake_resp (peer self) head_info)).
Proof.
  intros Hid Htyped Hbound.
  destruct (status_roundtrip _ (handshake_resp_valid _ _ Hid Htyped Hbound))
    as (payload & Henc & Hdec).
  cbn [command_encode_payload command_decode_payload Status.command]
    in Henc, Hdec.
  exists payload. split; [|done].
  by rewrite send_handshake_cases, Henc.
Qed.

Lemma send_handshake_sends_status_witness :
  ∃ payload,
    LESProtocol.send_handshake example_head_info example_protocol
    = (Ok tt,
       with_logged
         (with_sent example_protocol (16 + 0, payload))
         (SendingStatus
            (handshake_resp (peer example_protocol) example_head_info)))
    ∧ Status.decode_payload payload
      = Ok (list_to_map
              (handshake_resp (peer example_protocol) example_head_info)).
Proof.
  apply (send_handshake_sends_status example_head_info example_protocol).
  - by vm_compute.
  - by repeat split.
  - by vm_compute.
Defined.

(** X13. The three sending methods are all or nothing.  Each of
    [send_handshake], [send_get_block_headers] and [send_get_block_bodies]
    either raises and leaves the protocol object as it was, or returns
    after handing exactly one message to the transport, with the command
    code of Status, GetBlockHeaders or GetBlockBodies at the offset of the
    protocol; only [send_handshake] logs, and only after it has sent. *)
Theorem send_methods_all_or_nothing (MAX_BODIES_FETCH MAX_HEADERS_FETCH : Z)
    (self : Protocol) (head_info : head_info.t)
    (block_number max_headers request_id : Z) (reverse : bool)
    (block_hashes : list bytes) (bodies_id : Z) :
  ((∃ e, LESProtocol.send_handshake head_info self = (Raise e, self))
   ∨ ∃ payload,
       LESProtocol.send_handshake head_info self
       = (Ok tt,
          with_logged
            (with_sent self (cmd_id_offset self + 0, payload))
            (SendingStatus (handshake_resp (peer self) head_info))))
  ∧ ((∃ e, LESProtocol.send_get_block_headers MAX_HEADERS_FETCH block_number
             max_headers request_id reverse self = (Raise e, self))
     ∨ ∃ payload,
         LESProtocol.send_get_block_headers MAX_HEADERS_FETCH block_number
           max_headers request_id reverse self
         = (Ok tt, with_sent self (cmd_id_offset self + 2, payload)))
  ∧ ((∃ e, LESProtocol.send_get_block_bodies MAX_BODIES_FETCH block_hashes
             bodies_id self = (Raise e, self))
     ∨ ∃ payload,
         LESProtocol.send_get_block_bodies MAX_BODIES_FETCH block_hashes
           bodies_id self
         = (Ok tt, with_sent self (cmd_id_offset self + 4, payload))).
Proof.
  split; [|split].
  - rewrite send_handshake_cases.
    destruct (Status.encode_payload _) as [payload|e]; [right|left]; eauto.
  - unfold LESProtocol.send_get_block_headers.
    destruct (max_headers >? MAX_HEADERS_FETCH);
      [left; by eexists|].
    cbn zeta.
    match goal with
    | |- context [LESProtocol.send_command ?cmd ?data self] =>
        destruct (command_encode_payload cmd data) as [payload|e] eqn:Henc;
        [right; exists payload; by rewrite (send_command_Ok cmd data payload)
        |left; exists e; by rewrite (send_command_Raise cmd data e)]
    end.
  - unfold LESProtocol.send_get_block_bodies.
    destruct (Z.of_nat (length block_hashes) >? MAX_BODIES_FETCH);
      [left; by eexists|].
    cbn zeta.
    match goal with
    | |- context [LESProtocol.send_command ?cmd ?data self] =>
        destruct (command_encode_payload cmd data) as [payload|e] eqn:Henc;
        [right; exists payload; by rewrite (send_command_Ok cmd data payload)
        |left; exists e; by rewrite (send_command_Raise cmd data e)]
    end.
Qed.

(** X14. The limit of [send_get_block_headers] has no lower bound: a
    negative [max_headers] passes the check, and then, as a negative
    [block_number] or [request_id] does, makes the encoding of the request
    fail with [SerializationError]; nothing is sent.  The same holds for a
    negative [request_id] of [send_get_block_bodies]. *)
Theorem send_request_negative_argument
    (MAX_BODIES_FETCH MAX_HEADERS_FETCH : Z) (self : Protocol)
    (block_number max_headers request_id : Z) (reverse : bool)
    (block_hashes : list bytes) (bodies_id : Z) :
  (max_headers ≤ MAX_HEADERS_FETCH →
   block_number < 0 ∨ max_headers < 0 ∨ request_id < 0 →
   LESProtocol.send_get_block_headers MAX_HEADERS_FETCH block_number
     max_headers request_id reverse self
   = (Raise SerializationError, self))
  ∧ (Z.of_nat (length block_hashes) ≤ MAX_BODIES_FETCH →
     bodies_id < 0 →
     LESProtocol.send_get_block_bodies MAX_BODIES_FETCH block_hashes
       bodies_id self
     = (Raise SerializationError, self)).
Proof.
  split.
  - intros Hle Hneg. rewrite send_get_block_headers_within by done.
    apply send_command_Raise.
    cbn [command_encode_payload GetBlockHeaders.command].
    unfold Command_encode_payload, headers_request.
    cbn -[encode_raw int_to_big_endian Z.ltb].
    destruct (Z.ltb_spec request_id 0); [done|].
    destruct (Z.ltb_spec block_number 0); [done|].
    destruct (Z.ltb_spec max_headers 0); [done|]. lia.
  - intros Hle Hneg. rewrite send_get_block_bodies_within by done.
    apply send_command_Raise.
    cbn [command_encode_payload GetBlockBodies.command].
    unfold Command_encode_payload, bodies_request.
    cbn -[encode_raw int_to_big_endian Z.ltb fmap].
    change (serialize <$> GetBlockBodies.structure.*2)
      with [serialize big_endian_int; serialize (CountableList binary)].
    rewrite zip_apply_cons.
    change (serialize big_endian_int (PInt bodies_id))
      with (if bodies_id <? 0 then Raise SerializationError
            else Ok (PBytes (int_to_big_endian (Z.to_N bodies_id)))).
    by destruct (Z.ltb_spec bodies_id 0); [|lia].
Qed.

Lemma send_request_negative_argument_witness :
  LESProtocol.send_get_block_headers 192 100 (-1) 7 true example_protocol
  = (Raise SerializationError, example_protocol)
  ∧ LESProtocol.send_get_block_bodies 32 example_hashes (-7)
      example_protocol
    = (Raise SerializationError, example_protocol).
Proof.
  split.
  - refine (proj1 (send_request_negative_argument 32 192 example_protocol
                     100 (-1) 7 true example_hashes (-7)) _ _); lia.
  - refine (proj2 (send_request_negative_argument 32 192 example_protocol
                     100 (-1) 7 true example_hashes (-7)) _ _);
      [simpl; lia|lia].
Defined.

(** ** The handshake between two peers *)

(** X15. The Status message that [send_handshake] of one side sends,
    decoded by [Status.decode_payload] on the other side, passes
    [process_handshake] there exactly when the two sides have the same
    network id and the genesis hash of [head_info] is the genesis hash of
    the receiving side; otherwise [process_handshake] raises
    [HandshakeFailure(DisconnectReason.other)].  [Status.as_head_info] of
    the decoded message gives back the block number, block hash and total
    difficulty of [head_info], with a reorg depth of 0. *)
Theorem handshake_between_peers (head_info : head_info.t)
    (sender receiver : Protocol) :
  0 ≤ network_id (peer sender) →
  head_info_typed head_info →
  (status_bound (handshake_resp (peer sender) head_info) < 2 ^ 64)%N →
  ∃ payload decoded_msg,
    (LESProtocol.send_handshake head_info sender).1 = Ok tt
    ∧ outbox (LESProtocol.send_handshake head_info sender).2
      = outbox sender ++ [(cmd_id_offset sender + Status._cmd_id, payload)]
    ∧ Status.decode_payload payload = Ok decoded_msg
    ∧ ((LESProtocol.process_handshake decoded_msg receiver).1 = Ok tt
       ↔ network_id (peer sender) = network_id (peer receiver)
         ∧ head_info.genesis_hash head_info
           = PBytes (genesis_hash (peer receiver)))
    ∧ ((LESProtocol.process_handshake decoded_msg receiver).1 = Ok tt
       ∨ (LESProtocol.process_handshake decoded_msg receiver).1
         = Raise (HandshakeFailure other))
    ∧ Status.as_head_info decoded_msg
      = Ok {| block_number := head_info.block_number head_info;
              block_hash := head_info.block_hash head_info;
              total_difficulty := head_info.total_difficulty head_info;
              reorg_depth := PInt 0 |}.
Proof.
  intros Hid Htyped Hbound.
  destruct (status_roundtrip _ (handshake_resp_valid _ _ Hid Htyped Hbound))
    as (payload & Henc & Hdec).
  cbn [command_encode_payload command_decode_payload Status.command]
    in Henc, Hdec.
  exists payload, (list_to_map (handshake_resp (peer sender) head_info)).
  rewrite send_handshake_cases, Henc.
  split; [done|]. split; [done|]. split; [done|].
  rewrite process_handshake_cases.
  unfold Status.as_head_info, getitem.
  rewrite !lookup_list_to_map_assoc.
  change (assoc "networkId" (handshake_resp (peer sender) head_info))
    with (Some (PInt (network_id (peer sender)))).
  change (assoc "genesisHash" (handshake_resp (peer sender) head_info))
    with (Some (head_info.genesis_hash head_info)).
  change (assoc "headNum" (handshake_resp (peer sender) head_info))
    with (Some (head_info.block_number head_info)).
  change (assoc "headHash" (handshake_resp (peer sender) head_info))
    with (Some (head_info.block_hash head_info)).
  change (assoc "headTd" (handshake_resp (peer sender) head_info))
    with (Some (head_info.total_difficulty head_info)).
  split; [|split; [|done]].
  - destruct (py_ne (PInt _) _) eqn:Hn.
    { apply py_ne_true in Hn. split; [done|]. intros [Heq _]. congruence. }
    apply py_ne_false in Hn. injection Hn as Hn.
    destruct (py_ne (head_info.genesis_hash head_info) _) eqn:Hg.
    { apply py_ne_true in Hg. split; [|by intros [_ ?]].
      by destruct (encode_hex _). }
    apply py_ne_false in Hg. by split.
  - destruct (py_ne (PInt _) _); [by right|].
    destruct (py_ne (head_info.genesis_hash head_info) _); [|by left].
    destruct Htyped as (_ & _ & _ & Hgenesis).
    destruct (head_info.genesis_hash head_info); try done. by right.
Qed.

Lemma handshake_between_peers_witness :
  ∃ payload decoded_msg,
    (LESProtocol.send_handshake example_head_info example_protocol).1
    = Ok tt
    ∧ outbox (LESProtocol.send_handshake example_head_info
                example_protocol).2
      = outbox example_protocol
        ++ [(cmd_id_offset example_protocol + Status._cmd_id, payload)]
    ∧ Status.decode_payload payload = Ok decoded_msg
    ∧ ((LESProtocol.process_handshake decoded_msg other_network_protocol).1
         = Ok tt
       ↔ network_id (peer example_protocol)
         = network_id (peer other_network_protocol)
         ∧ head_info.genesis_hash example_head_info
           = PBytes (genesis_hash (peer other_network_protocol)))
    ∧ ((LESProtocol.process_handshake decoded_msg other_network_protocol).1
         = Ok tt
       ∨ (LESProtocol.process_handshake decoded_msg other_network_protocol).1
         = Raise (HandshakeFailure other))
    ∧ Status.as_head_info decoded_msg
      = Ok {| block_number := head_info.block_number example_head_info;
              block_hash := head_info.block_hash example_head_info;
              total_difficulty :=
                head_info.total_difficulty example_head_info;
              reorg_depth := PInt 0 |}.
Proof.
  apply (handshake_between_peers example_head_info example_protocol
           other_network_protocol).
  - by vm_compute.
  - by repeat split.
  - by vm_compute.
Defined.

(** ** Round trips *)

(** X16. A Status dictionary whose keys are keys of the table with a
    sedes, each with a value of the type of its sedes, and which fits the
    length limit of the codec, is encoded by [Status.encode_payload] to a
    payload that [Status.decode_payload] decodes to the same mapping. *)
Theorem Status_encode_decode (data : pydict) :
  NoDup data.*1 →
  Forall typed_item data →
  (status_bound data < 2 ^ 64)%N →
  ∃ payload,
    Status.encode_payload data = Ok payload
    ∧ Status.decode_payload payload = Ok (list_to_map data).
Proof.
  intros Hnd Htyped Hbound.
  exact (status_roundtrip data (conj Hnd (conj Htyped Hbound))).
Qed.

Lemma Status_encode_decode_witness :
  ∃ payload,
    Status.encode_payload status_in_order = Ok payload
    ∧ Status.decode_payload payload = Ok (list_to_map status_in_order).
Proof.
  apply (Status_encode_decode status_in_order).
  - apply (bool_decide_unpack _). by vm_compute.
  - unfold status_in_order.
    repeat constructor; eexists; (split; [reflexivity|by split]).
  - by vm_compute.
Defined.

(** X17. [Status.encode_payload] keeps such dictionaries apart: two of
    them with the same payload are equal as mappings. *)
Theorem Status_encode_injective (data1 data2 : pydict) (payload : bytes) :
  NoDup data1.*1 → Forall typed_item data1 →
  (status_bound data1 < 2 ^ 64)%N →
  NoDup data2.*1 → Forall typed_item data2 →
  (status_bound data2 < 2 ^ 64)%N →
  Status.encode_payload data1 = Ok payload →
  Status.encode_payload data2 = Ok payload →
  (list_to_map data1 : gmap string pyval) = list_to_map data2.
Proof.
  intros Hnd1 Ht1 Hb1 Hnd2 Ht2 Hb2 Henc1 Henc2.
  destruct (status_roundtrip data1 (conj Hnd1 (conj Ht1 Hb1)))
    as (p1 & Hp1 & Hdec1).
  destruct (status_roundtrip data2 (conj Hnd2 (conj Ht2 Hb2)))
    as (p2 & Hp2 & Hdec2).
  cbn [command_encode_payload command_decode_payload Status.command] in *.
  assert (p1 = payload) as -> by congruence.
  assert (p2 = payload) as -> by congruence.
  congruence.
Qed.

Lemma Status_encode_injective_witness :
  (list_to_map status_in_order : gmap string pyval)
  = list_to_map status_out_of_order.
Proof.
  apply (Status_encode_injective status_in_order status_out_of_order
           payload_status_in_order).
  - apply (bool_decide_unpack _). by vm_compute.
  - unfold status_in_order.
    repeat constructor; eexists; (split; [reflexivity|by split]).
  - by vm_compute.
  - apply (bool_decide_unpack _). by vm_compute.
  - unfold status_out_of_order.
    repeat constructor; eexists; (split; [reflexivity|by split]).
  - by vm_compute.
  - by vm_compute.
  - by vm_compute.
Defined.

(** X18. The five fixed-shape messages round-trip.  A dictionary that has
    the fields of the structure of Announce, GetBlockHeaders, BlockHeaders,
    GetBlockBodies or BlockBodies and no other key, each value of the type
    of its field and the whole within the length limit of the codec, is
    encoded to a payload that decodes to the same mapping; for the two
    messages that carry block headers and transactions this holds for
    every header and transaction sedes that round-trips on its own. *)
Theorem fixed_shape_encode_decode (BlockHeader BaseTransaction : sedes)
    (header transaction : pyval → bool) :
  codec_ok BlockHeader header →
  codec_ok BaseTransaction transaction →
  roundtrips Announce.command
    (fixed_valid Announce.structure Announce_types)
  ∧ roundtrips GetBlockHeaders.command
      (fixed_valid GetBlockHeaders.structure GetBlockHeaders_types)
  ∧ roundtrips (BlockHeaders.command BlockHeader)
      (fixed_valid (BlockHeaders.structure BlockHeader)
         (BlockHeaders_types header))
  ∧ roundtrips GetBlockBodies.command
      (fixed_valid GetBlockBodies.structure GetBlockBodies_types)
  ∧ roundtrips (BlockBodies.command BaseTransaction BlockHeader)
      (fixed_valid (BlockBodies.structure BaseTransaction BlockHeader)
         (BlockBodies_types transaction header)).
Proof.
  intros Hheader Htransaction.
  repeat split; apply fixed_roundtrip; repeat constructor;
    repeat first
      [ apply big_endian_int_ok | apply binary_ok | apply raw_ok
      | assumption
      | apply CountableList_ok
      | apply List_ok; repeat constructor
      | apply Serializable_ok; repeat constructor ].
Qed.

Lemma fixed_shape_encode_decode_witness :
  ∃ payload,
    Command_encode_payload Announce.structure announce_data = Ok payload
    ∧ Command_decode_payload Announce.structure payload
      = Ok (list_to_map announce_data).
Proof.
  refine (proj1 (fixed_shape_encode_decode binary binary dom_bytes dom_bytes
                   binary_ok binary_ok) announce_data _).
  split.
  - intros key Hkey. exact Hkey.
  - exists [PBytes [x0a]; PInt 7; PInt 70; PInt 2; PSeq []].
    split; [reflexivity|]. split; reflexivity.
Defined.

Lemma items_type_of_known (key : string) :
  is_Some (assoc key Status.items_sedes) →
  key = "serveHeaders" ∨ key = "txRelay"
  ∨ ∃ t, assoc key items_type = Some t ∧ t ≠ TFlag.
Proof.
  unfold items_type, Status.items_sedes. cbn [assoc].
  repeat match goal with
         | |- context [String.eqb ?a key] =>
             destruct (String.eqb_spec a key) as [<-|_]
         end;
    intros Hknown; try (by left); try (by right; left);
    try (right; right; by eexists);
    by destruct Hknown.
Qed.

(** X19. What [Status.decode_payload] returns can be sent again, unless it
    has one of the two keys without sedes: a decoded dictionary without
    [serveHeaders] and [txRelay], within the length limit of the codec, is
    encoded by [Status.encode_payload], and the new payload decodes to the
    same dictionary. *)
Theorem decode_payload_reencodes (rlp_data : bytes)
    (m : gmap string pyval) :
  Status.decode_payload rlp_data = Ok m →
  m !! "serveHeaders" = None →
  m !! "txRelay" = None →
  (status_bound (map_to_list m) < 2 ^ 64)%N →
  ∃ payload,
    Status.encode_payload (map_to_list m) = Ok payload
    ∧ Status.decode_payload payload = Ok m.
Proof.
  intros Hm Hserve Hrelay Hbound.
  destruct (status_roundtrip (map_to_list m)) as (payload & Henc & Hdec).
  { split; [apply NoDup_fst_map_to_list|]. split; [|done].
    apply Forall_forall. intros [key v] Hkv%elem_of_map_to_list.
    destruct (decode_payload_entry _ _ _ _ Hm Hkv) as (w & Hw).
    assert (is_Some (assoc key Status.items_sedes)) as Hknown.
    { unfold decode_value in Hw.
      destruct (assoc key Status.items_sedes); [eauto|done]. }
    destruct (items_type_of_known _ Hknown) as [->|[->|(t & Ht & Hflag)]];
      [congruence|congruence|].
    exists t. split; [done|]. split; [done|].
    by apply (decode_payload_entry_typed _ _ _ _ _ Hm Hkv). }
  cbn [command_encode_payload command_decode_payload Status.command]
    in Henc, Hdec.
  exists payload. split; [done|]. by rewrite Hdec, list_to_map_to_list.
Qed.

Lemma decode_payload_reencodes_witness :
  ∃ payload,
    Status.encode_payload (map_to_list decoded_unknown_keys) = Ok payload
    ∧ Status.decode_payload payload = Ok decoded_unknown_keys.
Proof.
  apply (decode_payload_reencodes payload_unknown_keys decoded_unknown_keys).
  - vm_compute. reflexivity.
  - vm_compute. reflexivity.
  - vm_compute. reflexivity.
  - vm_compute. reflexivity.
Defined.
